(** * ttnn/tensor.py: layout, shape and storage conversions of a ttnn tensor

    A shallow embedding of [src/ttnn/tensor.py].  The Python functions are
    translated one by one into a state-and-exception monad; the state holds
    the buffers that are alive and the list of calls made to the [tt_lib]
    bindings and to [torch].  The bindings themselves ([tt_lib], the
    [ttnn.decorators] wrappers) are not part of the file under study: they
    are modelled from the specification and kept in a module of their own. *)

From Stdlib Require Import ZArith Lia String List.
From stdpp Require Import base option list gmap.
Import ListNotations.

(** ** Enumerations and constants of the module (lines 14-41) *)

Inductive DataType := UINT32 | FLOAT32 | BFLOAT16 | BFLOAT8_B.
Definition uint32 := UINT32.
Definition float32 := FLOAT32.
Definition bfloat16 := BFLOAT16.
Definition bfloat8_b := BFLOAT8_B.

Inductive BufferType := DRAM | L1.
Inductive TensorMemoryLayout := INTERLEAVED.

Record MemoryConfig := mkMemoryConfig {
  memory_layout : TensorMemoryLayout;
  buffer_type : BufferType
}.

Definition DRAM_MEMORY_CONFIG := mkMemoryConfig INTERLEAVED DRAM.
Definition L1_MEMORY_CONFIG := mkMemoryConfig INTERLEAVED L1.

Inductive Layout := ROW_MAJOR | TILE.
Definition ROW_MAJOR_LAYOUT := ROW_MAJOR.
Definition TILE_LAYOUT := TILE.

Inductive StorageType := OWNED | DEVICE.
Definition DEVICE_STORAGE_TYPE := DEVICE.

Definition TILE_SIZE : Z := 32.

(** A device is known by its id. *)
Definition Device := nat.

#[global] Instance DataType_eq_dec : EqDecision DataType.
Proof. solve_decision. Defined.
#[global] Instance BufferType_eq_dec : EqDecision BufferType.
Proof. solve_decision. Defined.
#[global] Instance TensorMemoryLayout_eq_dec : EqDecision TensorMemoryLayout.
Proof. solve_decision. Defined.
#[global] Instance MemoryConfig_eq_dec : EqDecision MemoryConfig.
Proof. solve_decision. Defined.
#[global] Instance Layout_eq_dec : EqDecision Layout.
Proof. solve_decision. Defined.
#[global] Instance StorageType_eq_dec : EqDecision StorageType.
Proof. solve_decision. Defined.

(** ** Shapes and tensors *)

(** Modelled from the spec: [Shape(shape, full_shape)], section 3: the
    logical dimensions ([list(shape)]) and the padded ones
    ([list(shape.padded())]); two shapes are equal when both agree. *)
Record Shape := mkShape {
  dims : list Z;
  padded : list Z
}.

#[global] Instance Shape_eq_dec : EqDecision Shape.
Proof. solve_decision. Defined.

(** Where the buffer of a tensor lives. *)
Inductive Storage :=
| HostStorage
| DeviceStorage (device : Device) (memory_config : MemoryConfig).

#[global] Instance Storage_eq_dec : EqDecision Storage.
Proof. solve_decision. Defined.

(** Modelled from the spec: a [ttnn.Tensor] together with the [tt_lib]
    tensor it wraps ([tensor.value]), section 3: dtype, layout, location
    (with the memory config on a device), shape and buffer. *)
Record Tensor := mkTensor {
  dtype : DataType;
  layout : Layout;
  storage : Storage;
  shape : Shape;
  buffer : nat
}.

#[global] Instance Tensor_eq_dec : EqDecision Tensor.
Proof. solve_decision. Defined.

(** A [torch.Tensor]: a dense row-major host array. *)
Inductive TorchDType := torch_int32 | torch_float32 | torch_bfloat16.

Record TorchTensor := mkTorchTensor {
  torch_dtype : TorchDType;
  torch_shape : list Z;
  torch_data : list Z
}.

(** ** Exceptions *)

Inductive exception :=
| RuntimeError (msg : string)
| ValueError (msg : string)
| IndexError (msg : string)
| UnboundLocalError (msg : string)
| RecursionError
| StorageError (msg : string).

Inductive result (A : Type) :=
| Ok (a : A)
| Raise (e : exception).
Arguments Ok {A} a.
Arguments Raise {A} e.

(** The messages of the [raise] statements of the module. *)
Definition msg_not_on_device : string := "Tensor is not on device!".
Definition msg_slicing : string :=
  "Tensor must be in ROW_MAJOR layout to use slicing!".
Definition msg_wildcards : string :=
  "Shape cannot have more than 1 elements that is set to -1!".
Definition msg_shape_type : string := "Shape must be of type Shape".
Definition msg_more_than_4D : string :=
  "Tensor cannot have more than 4 dimensions!".
Definition msg_device_required : string :=
  "device must be specified when memory_config is specified".
Definition msg_to_torch_device : string :=
  "ttnn.Tensor cannot be on device when converting to torch.Tensor!".
Definition msg_to_torch_layout : string :=
  "ttnn.Tensor has to be in ROW_MAJOR Layout to be converted to torch.Tensor".

(** The error kinds of the specification, read off the exceptions. *)
Definition ShapeError (e : exception) : Prop :=
  e = RuntimeError msg_wildcards \/ e = RuntimeError msg_more_than_4D.
Definition LayoutError (e : exception) : Prop :=
  e = RuntimeError msg_slicing.
Definition is_StorageError (e : exception) : Prop :=
  exists msg, e = StorageError msg.

(** ** The world: live buffers and the calls made so far *)

(** The calls that leave the module: methods and functions of [tt_lib],
    and the [torch] operations. *)
Inductive call :=
| call_cpu
| call_to_device
| call_to_layout
| call_reshape
| call_to_torch
| call_from_torch
| call_tilize
| call_untilize
| call_tilize_with_val_padding
| call_untilize_with_unpadding
| call_pad
| call_unpad_from_tile
| call_device_reshape
| call_deallocate
| call_move
| call_torch_getitem
| call_torch_reshape
| call_torch_slice.

#[global] Instance call_eq_dec : EqDecision call.
Proof. solve_decision. Defined.

(** [heap] maps the id of a live buffer to its elements, [next] is the
    next unused id, [calls] lists the calls, the most recent first. *)
Record World := mkWorld {
  heap : gmap nat (list Z);
  next : nat;
  calls : list call
}.

Definition M (A : Type) : Type := World -> result A * World.

Definition ret {A} (a : A) : M A := fun w => (Ok a, w).
Definition raise {A} (e : exception) : M A := fun w => (Raise e, w).
Definition bind {A B} (m : M A) (k : A -> M B) : M B :=
  fun w => match m w with
           | (Ok a, w') => k a w'
           | (Raise e, w') => (Raise e, w')
           end.

Notation "x <- m ;; k" := (bind m (fun x => k))
  (at level 100, m at next level, right associativity).
Notation "m ;;; k" := (bind m (fun _ => k))
  (at level 100, right associativity).

(** Lifting a pure, fallible computation. *)
Definition lift {A} (r : result A) : M A := fun w => (r, w).

Definition log (c : call) : M unit :=
  fun w => (Ok tt, mkWorld (heap w) (next w) (c :: calls w)).

(** A fresh buffer holding [data]. *)
Definition alloc (data : list Z) : M nat :=
  fun w => (Ok (next w),
            mkWorld (<[next w := data]> (heap w)) (S (next w)) (calls w)).

Definition msg_deallocated : string := "buffer is not allocated".

(** The elements of a live buffer; reading a released one fails. *)
Definition read (b : nat) : M (list Z) :=
  fun w => match heap w !! b with
           | Some data => (Ok data, w)
           | None => (Raise (RuntimeError msg_deallocated), w)
           end.

Definition release (b : nat) : M unit :=
  fun w => (Ok tt, mkWorld (delete b (heap w)) (next w) (calls w)).

(** ** Dense arrays: elements in row-major order under a list of sizes *)

(** [math.prod]. *)
Definition prod (l : list Z) : Z := fold_right Z.mul 1%Z l.

(** Cuts [l] into consecutive pieces of [k] elements (the last one may be
    shorter); no piece when [k] is 0. *)
Fixpoint chunks_fuel {A} (fuel k : nat) (l : list A) : list (list A) :=
  match fuel with
  | O => []
  | S fuel' =>
      match l with
      | [] => []
      | _ => take k l :: chunks_fuel fuel' k (drop k l)
      end
  end.

Definition chunks {A} (k : nat) (l : list A) : list (list A) :=
  match k with
  | O => []
  | _ => chunks_fuel (length l) k l
  end.

(** The size of dimension [d] and the number of elements under one index of
    that dimension. *)
Definition dim_size (sizes : list Z) (d : nat) : Z := default 0%Z (sizes !! d).
Definition inner_size (sizes : list Z) (d : nat) : Z := prod (drop (S d) sizes).

(** Keeps the indices [start, start + len) of dimension [d]. *)
Definition narrow_dim (sizes : list Z) (d : nat) (start len : Z)
    (data : list Z) : list Z :=
  let inner := inner_size sizes d in
  let row := Z.to_nat (dim_size sizes d * inner) in
  concat (map (fun c => take (Z.to_nat (len * inner))
                          (drop (Z.to_nat (start * inner)) c))
              (chunks row data)).

(** Extends dimension [d] to [n] indices, the new elements being [v]. *)
Definition pad_dim (sizes : list Z) (d : nat) (n v : Z)
    (data : list Z) : list Z :=
  let inner := inner_size sizes d in
  let row := Z.to_nat (dim_size sizes d * inner) in
  concat (map (fun c => c ++ replicate (Z.to_nat (n * inner) - length c) v)
              (chunks row data)).

(** Trims every dimension of an array of sizes [sizes] to [target], the
    dimensions taken from the last to the first. *)
Fixpoint trim_from (d : nat) (sizes target : list Z) (data : list Z)
    : list Z :=
  match d with
  | O => data
  | S d' =>
      let n := dim_size target d' in
      trim_from d' (<[d' := n]> sizes) target
        (narrow_dim sizes d' 0 n data)
  end.

Definition trim_to (sizes target : list Z) (data : list Z) : list Z :=
  trim_from (length sizes) sizes target data.

(** Pads every dimension of an array of sizes [sizes] up to [target]. *)
Fixpoint pad_from (d : nat) (sizes target : list Z) (v : Z) (data : list Z)
    : list Z :=
  match d with
  | O => data
  | S d' =>
      let n := dim_size target d' in
      pad_from d' (<[d' := n]> sizes) target v (pad_dim sizes d' n v data)
  end.

Definition pad_to (sizes target : list Z) (v : Z) (data : list Z) : list Z :=
  pad_from (length sizes) sizes target v data.

(** ** The [torch] operations the module calls *)

Module torch.

(** An item of an index expression: an integer or a range [start:stop]. *)
Inductive index_item :=
| Idx (i : Z)
| Range (start stop : option Z).

Definition msg_index : string := "index out of range".
Definition msg_too_many : string := "too many indices for tensor".
Definition msg_invalid_shape : string := "shape is invalid for input size".

(** A bound of a range, counted from the end when negative, clamped to
    the dimension. *)
Definition clamp_bound (size : Z) (b : Z) : Z :=
  let b' := if (b <? 0)%Z then (b + size)%Z else b in
  Z.max 0 (Z.min size b').

(** Modelled from the spec: [torch.Tensor.__getitem__] of the host array
    library, for integers and ranges, applied from dimension [d] on. *)
Fixpoint getitem_from (d : nat) (sizes : list Z) (data : list Z)
    (items : list index_item) : result (list Z * list Z) :=
  match items with
  | [] => Ok (sizes, data)
  | item :: items' =>
      match sizes !! d with
      | None => Raise (IndexError msg_too_many)
      | Some size =>
          match item with
          | Idx i =>
              let i' := if (i <? 0)%Z then (i + size)%Z else i in
              if ((0 <=? i') && (i' <? size))%Z
              then getitem_from d (delete d sizes)
                     (narrow_dim sizes d i' 1 data) items'
              else Raise (IndexError msg_index)
          | Range start stop =>
              let lo := clamp_bound size (default 0%Z start) in
              let hi := clamp_bound size (default size stop) in
              let len := Z.max 0 (hi - lo) in
              getitem_from (S d) (<[d := len]> sizes)
                (narrow_dim sizes d lo len data) items'
          end
      end
  end.

Definition getitem (t : TorchTensor) (items : list index_item)
    : result TorchTensor :=
  match getitem_from 0 (torch_shape t) (torch_data t) items with
  | Ok (sizes, data) => Ok (mkTorchTensor (torch_dtype t) sizes data)
  | Raise e => Raise e
  end.

(** Modelled from the spec: [torch.Tensor.reshape], which keeps the
    elements in order and refuses a shape of another volume. *)
Definition reshape (t : TorchTensor) (sizes : list Z) : result TorchTensor :=
  if decide (prod sizes = prod (torch_shape t))
  then Ok (mkTorchTensor (torch_dtype t) sizes (torch_data t))
  else Raise (RuntimeError msg_invalid_shape).

(** Modelled from the spec: [tensor[slicing]] with
    [slicing[dim] = slice(None, n)] and every other entry [slice(None)]. *)
Definition slice_dim (t : TorchTensor) (d : nat) (n : Z) : TorchTensor :=
  let size := dim_size (torch_shape t) d in
  let len := Z.max 0 (clamp_bound size n - 0) in
  mkTorchTensor (torch_dtype t) (<[d := len]> (torch_shape t))
    (narrow_dim (torch_shape t) d 0 len (torch_data t)).

End torch.

(** ** The [tt_lib] bindings the module calls *)

Module ttl.

Definition msg_already_on_host : string := "tensor is already on host".
Definition msg_already_on_device : string := "tensor is already on device".
Definition msg_requires_host : string := "tensor must be on host".
Definition msg_requires_device : string := "tensor must be on device".

(** Modelled from the spec: the element type a host array is given when
    [dtype] is [None]. *)
Definition dtype_of_torch (d : TorchDType) : DataType :=
  match d with
  | torch_int32 => UINT32
  | torch_float32 => FLOAT32
  | torch_bfloat16 => BFLOAT16
  end.

(** Modelled from the spec: the element type of the host array a tensor
    is read back as. *)
Definition dtype_to_torch (d : DataType) : TorchDType :=
  match d with
  | UINT32 => torch_int32
  | FLOAT32 => torch_float32
  | BFLOAT16 => torch_bfloat16
  | BFLOAT8_B => torch_float32
  end.

(** Modelled from the spec: [tensor.value.storage_type()]. *)
Definition storage_type (t : Tensor) : StorageType :=
  match storage t with
  | HostStorage => OWNED
  | DeviceStorage _ _ => DEVICE
  end.

Definition with_shape (t : Tensor) (s : Shape) : Tensor :=
  mkTensor (dtype t) (layout t) (storage t) s (buffer t).

(** A copy of [t] in a fresh buffer holding [data]. *)
Definition fresh (dt : DataType) (l : Layout) (st : Storage) (s : Shape)
    (data : list Z) : M Tensor :=
  b <- alloc data ;;
  ret (mkTensor dt l st s b).

(** Modelled from the spec: [ttl.tensor.Tensor(torch_tensor, dtype)], which
    wraps an external host array: a row-major host tensor without padding
    in a buffer of its own. *)
Definition Tensor_from_torch (t : TorchTensor) (dt : option DataType)
    : M Tensor :=
  log call_from_torch ;;;
  fresh (default (dtype_of_torch (torch_dtype t)) dt) ROW_MAJOR HostStorage
    (mkShape (torch_shape t) (torch_shape t)) (torch_data t).

(** Modelled from the spec: [ttl_tensor.to_torch()], the padded array of
    a host tensor. *)
Definition to_torch (t : Tensor) : M TorchTensor :=
  log call_to_torch ;;;
  data <- read (buffer t) ;;
  ret (mkTorchTensor (dtype_to_torch (dtype t)) (padded (shape t)) data).

(** Modelled from the spec: [ttl_tensor.cpu()], section 4.4 [fromDevice]:
    copies the buffer to host, and is an error (a StorageError, not
    silently ignored) on a tensor that is already on host. *)
Definition cpu (t : Tensor) : M Tensor :=
  log call_cpu ;;;
  match storage t with
  | HostStorage => raise (StorageError msg_already_on_host)
  | DeviceStorage _ _ =>
      data <- read (buffer t) ;;
      fresh (dtype t) (layout t) HostStorage (shape t) data
  end.

(** Modelled from the spec: [ttl_tensor.to(device, memory_config)],
    section 4.4 [toDevice]: requires a host tensor, copies its buffer to
    the named pool of the device, and fails with a StorageError on a
    tensor that is already on device. *)
Definition to_device (t : Tensor) (dev : Device) (mc : MemoryConfig)
    : M Tensor :=
  log call_to_device ;;;
  match storage t with
  | DeviceStorage _ _ => raise (StorageError msg_already_on_device)
  | HostStorage =>
      data <- read (buffer t) ;;
      fresh (dtype t) (layout t) (DeviceStorage dev mc) (shape t) data
  end.

(** Modelled from the spec: [ttl_tensor.to(layout)] on host, section 4.2:
    a reinterpretation of the tag, without data movement. *)
Definition to_layout (t : Tensor) (l : Layout) : M Tensor :=
  log call_to_layout ;;;
  match storage t with
  | DeviceStorage _ _ => raise (StorageError msg_requires_host)
  | HostStorage =>
      ret (mkTensor (dtype t) l (storage t) (shape t) (buffer t))
  end.

(** Modelled from the spec: [ttl_tensor.reshape(shape.value)], section 4.3
    step 3: the buffer is reused and only the shape changes. *)
Definition reshape (t : Tensor) (s : Shape) : M Tensor :=
  log call_reshape ;;;
  ret (with_shape t s).

(** Modelled from the spec: [ttl.tensor.reshape(t, w, z, y, x)], the
    reshape primitive of the device, section 4.3 step 5. *)
Definition tensor_reshape (t : Tensor) (w z y x : Z) : M Tensor :=
  log call_device_reshape ;;;
  data <- read (buffer t) ;;
  fresh (dtype t) (layout t) (storage t)
    (mkShape [w; z; y; x] [w; z; y; x]) data.

(** Modelled from the spec: [ttl.tensor.tilize] and [ttl.tensor.untilize],
    the tile and untile primitives of the device, section 4.2: the tag
    changes, the shape and the memory config stay. *)
Definition tilize (t : Tensor) (mc : MemoryConfig) : M Tensor :=
  log call_tilize ;;;
  match storage t with
  | HostStorage => raise (StorageError msg_requires_device)
  | DeviceStorage dev _ =>
      data <- read (buffer t) ;;
      fresh (dtype t) TILE (DeviceStorage dev mc) (shape t) data
  end.

Definition untilize (t : Tensor) : M Tensor :=
  log call_untilize ;;;
  match storage t with
  | HostStorage => raise (StorageError msg_requires_device)
  | DeviceStorage _ _ =>
      data <- read (buffer t) ;;
      fresh (dtype t) ROW_MAJOR (storage t) (shape t) data
  end.

(** Modelled from the spec: [ttl_tensor.memory_config()]. *)
Definition memory_config (t : Tensor) : MemoryConfig :=
  match storage t with
  | HostStorage => DRAM_MEMORY_CONFIG
  | DeviceStorage _ mc => mc
  end.

(** Modelled from the spec: [ttl.tensor.tilize_with_val_padding], which
    pads a row-major device tensor with a value up to [out] and tiles
    it. *)
Definition tilize_with_val_padding (t : Tensor) (out : list Z)
    (start : list Z) (v : Z) : M Tensor :=
  log call_tilize_with_val_padding ;;;
  match storage t with
  | HostStorage => raise (StorageError msg_requires_device)
  | DeviceStorage _ _ =>
      data <- read (buffer t) ;;
      fresh (dtype t) TILE (storage t) (mkShape (padded (shape t)) out)
        (pad_to (padded (shape t)) out v data)
  end.

(** Modelled from the spec: [ttl.tensor.untilize_with_unpadding], which
    untiles a device tensor and keeps the indices from [start] to
    [stop], both included, of every dimension. *)
Definition untilize_with_unpadding (t : Tensor) (start stop : list Z)
    : M Tensor :=
  log call_untilize_with_unpadding ;;;
  match storage t with
  | HostStorage => raise (StorageError msg_requires_device)
  | DeviceStorage _ _ =>
      data <- read (buffer t) ;;
      let out := zip_with (fun e s => (e - s + 1)%Z) stop start in
      fresh (dtype t) ROW_MAJOR (storage t) (mkShape out out)
        (trim_to (padded (shape t)) out data)
  end.

(** Modelled from the spec: [ttl_tensor.pad(shape, start, value)], which
    pads the buffer of a host tensor with a fill value up to [out]. *)
Definition pad (t : Tensor) (out : list Z) (start : list Z) (v : Z)
    : M Tensor :=
  log call_pad ;;;
  match storage t with
  | DeviceStorage _ _ => raise (StorageError msg_requires_host)
  | HostStorage =>
      data <- read (buffer t) ;;
      fresh (dtype t) (layout t) HostStorage
        (mkShape (padded (shape t)) out)
        (pad_to (padded (shape t)) out v data)
  end.

(** Modelled from the spec: [ttl_tensor.unpad_from_tile(shape)], which
    strips the padding of a host tensor by trimming the trailing elements
    of every dimension. *)
Definition unpad_from_tile (t : Tensor) (out : list Z) : M Tensor :=
  log call_unpad_from_tile ;;;
  match storage t with
  | DeviceStorage _ _ => raise (StorageError msg_requires_host)
  | HostStorage =>
      data <- read (buffer t) ;;
      fresh (dtype t) (layout t) HostStorage (mkShape out out)
        (trim_to (padded (shape t)) out data)
  end.

(** Modelled from the spec: [ttl_tensor.deallocate(force=True)], which
    releases the buffer at once. *)
Definition deallocate (t : Tensor) : M unit :=
  log call_deallocate ;;;
  release (buffer t).

(** Modelled from the spec: [ttl.tensor.move], section 4.4 [reallocate]:
    the same content at a new place. *)
Definition move (t : Tensor) : M Tensor :=
  log call_move ;;;
  data <- read (buffer t) ;;
  release (buffer t) ;;;
  fresh (dtype t) (layout t) (storage t) (shape t) data.

End ttl.

(** ** Python sequences *)

Definition msg_unpack : string := "not enough values to unpack".
Definition msg_tuple_index : string := "tuple.index(x): x not in tuple".
Definition msg_out_of_range : string := "index out of range".
Definition msg_unbound : string :=
  "local variable 'output_tensor' referenced before assignment".

(** [l.count(x)] and [l.index(x)]. *)
Definition count (l : list Z) (x : Z) : nat :=
  length (filter (fun y => y = x) l).

Fixpoint index (l : list Z) (x : Z) : option nat :=
  match l with
  | [] => None
  | y :: l' => if decide (y = x) then Some O else S <$> index l' x
  end.

(** [l[-2:]] and [l[:-2]]. *)
Definition last_two (l : list Z) : list Z := drop (length l - 2) l.
Definition but_last_two (l : list Z) : list Z := take (length l - 2) l.

(** [l[-k]] for [k >= 1]. *)
Definition from_end (l : list Z) (k : nat) : option Z :=
  if decide (1 <= k <= length l) then l !! (length l - k) else None.

(** [l[-1]], an [IndexError] on the empty sequence. *)
Definition getitem_last (l : list Z) : result Z :=
  match from_end l 1 with
  | Some x => Ok x
  | None => Raise (IndexError msg_out_of_range)
  end.

(** [*rest, x = l]. *)
Definition unpack_last (l : list Z) : result (list Z * Z) :=
  match from_end l 1 with
  | Some x => Ok (take (length l - 1) l, x)
  | None => Raise (ValueError msg_unpack)
  end.

(** [*rest, y, x = l]. *)
Definition unpack_last_two (l : list Z) : result (list Z * Z * Z) :=
  match from_end l 2, from_end l 1 with
  | Some y, Some x => Ok (but_last_two l, y, x)
  | _, _ => Raise (ValueError msg_unpack)
  end.

(** ** The module *)

(** The argument [shape] of [_reshape]: a tuple, a [Shape], or a value of
    another type. *)
Inductive shape_arg :=
| TupleArg (l : list Z)
| ShapeArg (s : Shape)
| OtherArg.

(** Modelled from the spec: [Shape(shape)], the constructor of a shape
    from its dimensions alone: the padded dimensions are the logical ones. *)
Definition Shape_of (l : list Z) : Shape := mkShape l l.

(** [has_storage_type_of], line 86. *)
Definition has_storage_type_of (tensor : Tensor) (storage_type : StorageType)
    : bool :=
  bool_decide (ttl.storage_type tensor = storage_type).

(** [Tensor.device], lines 45-50. *)
Definition device (self : Tensor) : result Device :=
  if has_storage_type_of self DEVICE_STORAGE_TYPE
  then match storage self with
       | DeviceStorage d _ => Ok d
       | HostStorage => Raise (RuntimeError msg_not_on_device)
       end
  else Raise (RuntimeError msg_not_on_device).

(** [Tensor.is_contiguous], lines 79-83. *)
Definition is_contiguous (self : Tensor) : bool :=
  match layout self with
  | ROW_MAJOR => bool_decide (padded (shape self) = dims (shape self))
  | TILE => false
  end.

(** [to_device], lines 418-446. *)
Definition to_device (tensor : Tensor) (dev : Device)
    (memory_config : MemoryConfig) : M Tensor :=
  ttl.to_device tensor dev memory_config.

(** [from_device], lines 449-472. *)
Definition from_device (tensor : Tensor) : M Tensor :=
  ttl.cpu tensor.

(** [deallocate], lines 475-496, and [reallocate], lines 508-512. *)
Definition deallocate (tensor : Tensor) : M unit :=
  ttl.deallocate tensor.

Definition reallocate (input_tensor : Tensor) : M Tensor :=
  ttl.move input_tensor.

(** The part of [_reshape] that reads its argument, lines 91-105: the
    wildcard [-1] of a tuple is replaced by the volume of the tensor
    floor-divided by the product of the other entries. *)
Definition resolve_shape (input_tensor : Tensor) (arg : shape_arg)
    : result Shape :=
  match arg with
  | TupleArg l =>
      if negb (count l (-1) <=? 1)%nat
      then Raise (RuntimeError msg_wildcards)
      else
        let volume := prod (dims (shape input_tensor)) in
        let new_volume := prod l in
        if (new_volume <? 0)%Z
        then match index l (-1) with
             | Some index_of_negative_1 =>
                 Ok (Shape_of
                       (<[index_of_negative_1 := (volume / - new_volume)%Z]> l))
             | None => Raise (ValueError msg_tuple_index)
             end
        else Ok (Shape_of l)
  | ShapeArg s => Ok s
  | OtherArg => Raise (RuntimeError msg_shape_type)
  end.

(** [requires_padding_change], lines 202-214. *)
Definition requires_padding_change (lay : Layout) (s : Shape) : bool :=
  let intended_shape := last_two (dims s) in
  let padded_shape := last_two (padded s) in
  if bool_decide (lay = ROW_MAJOR_LAYOUT)
     && negb (bool_decide (intended_shape = padded_shape))
  then true
  else if bool_decide (lay = TILE_LAYOUT)
          && bool_decide (intended_shape = padded_shape)
          && ((length intended_shape <? 2)%nat
              || negb (default 0 (from_end intended_shape 1) mod TILE_SIZE =? 0)%Z
              || negb (default 0 (from_end intended_shape 2) mod TILE_SIZE =? 0)%Z)
  then true
  else false.

(** The functions of the module that call one another: [_reshape] calls
    [from_torch] and [to_torch], which call [to_layout], which calls
    [_reshape_to_4D] and [_reshape].  Each body below takes the functions
    it calls from a record; the knot is tied further down by a bound on
    the depth of the calls, as the interpreter's recursion limit does. *)
Record functions := mkFunctions {
  fn__reshape : Tensor -> shape_arg -> M Tensor;
  fn__reshape_to_4D : Tensor -> M Tensor;
  fn_to_layout : Tensor -> Layout -> M Tensor;
  fn_from_torch :
    TorchTensor -> option DataType -> option Layout -> option Device ->
    option MemoryConfig -> M Tensor;
  fn_to_torch : Tensor -> M TorchTensor
}.

Section bodies.

Variable rec : functions.

(** [ttnn_reshape], lines 110-114. *)
Definition ttnn_reshape (tensor : Tensor) (new_shape : Shape) : M Tensor :=
  ttl.reshape tensor new_shape.

(** [torch_reshape], lines 142-143. *)
Definition torch_reshape (tensor : TorchTensor) (new_shape : Shape)
    : M TorchTensor :=
  log call_torch_reshape ;;;
  lift (torch.reshape tensor (padded new_shape)).

(** [_reshape], lines 129-162: the reshape primitive of the device for
    two shapes of rank 4, else the round trip through the host array. *)
Definition _reshape_moving (input_tensor : Tensor) (new_shape : Shape)
    : M Tensor :=
  if has_storage_type_of input_tensor DEVICE
     && bool_decide (length (dims (shape input_tensor)) = 4%nat)
     && bool_decide (length (dims new_shape) = 4%nat)
  then
    match dims new_shape with
    | [w; z; y; x] =>
        output_tensor <- ttl.tensor_reshape input_tensor w z y x ;;
        ttnn_reshape output_tensor new_shape
    | _ => raise (ValueError msg_unpack)
    end
  else if has_storage_type_of input_tensor DEVICE
  then
    dev <- lift (device input_tensor) ;;
    tensor <- from_device input_tensor ;;
    tensor <- ttl.to_layout tensor ROW_MAJOR_LAYOUT ;;
    tensor <- fn_to_torch rec tensor ;;
    tensor <- torch_reshape tensor new_shape ;;
    tensor <- fn_from_torch rec tensor (Some (dtype input_tensor))
                (Some ROW_MAJOR_LAYOUT) None None ;;
    tensor <- to_device tensor dev DRAM_MEMORY_CONFIG ;;
    ttnn_reshape tensor new_shape
  else
    tensor <- ttl.to_layout input_tensor ROW_MAJOR_LAYOUT ;;
    tensor <- fn_to_torch rec tensor ;;
    tensor <- torch_reshape tensor new_shape ;;
    tensor <- fn_from_torch rec tensor (Some (dtype input_tensor))
                (Some ROW_MAJOR_LAYOUT) None None ;;
    ttnn_reshape tensor new_shape.

(** [_reshape], lines 124-127, then the rest. *)
Definition _reshape_tiled (input_tensor : Tensor) (new_shape : Shape)
    : M Tensor :=
  match layout input_tensor with
  | TILE =>
      hw <- lift (unpack_last_two (padded new_shape)) ;;
      let '(_, new_height, new_width) := hw in
      if ((new_height mod TILE_SIZE =? 0) && (new_width mod TILE_SIZE =? 0))%Z
      then ttnn_reshape input_tensor new_shape
      else _reshape_moving input_tensor new_shape
  | ROW_MAJOR => _reshape_moving input_tensor new_shape
  end.

(** [_reshape], lines 90-162. *)
Definition _reshape_body (input_tensor : Tensor) (arg : shape_arg)
    : M Tensor :=
  new_shape <- lift (resolve_shape input_tensor arg) ;;
  if bool_decide (shape input_tensor = new_shape)
     && bool_decide (dims (shape input_tensor) = dims new_shape)
  then ret input_tensor
  else if is_contiguous input_tensor
  then
    if has_storage_type_of input_tensor DEVICE
    then
      (* Page size depends on the width, so only modify the shape if the
         width is the same *)
      old_width <- lift (getitem_last (dims (shape input_tensor))) ;;
      new_width <- lift (getitem_last (dims new_shape)) ;;
      if bool_decide (old_width = new_width)
      then ttnn_reshape input_tensor new_shape
      else _reshape_tiled input_tensor new_shape
    else ttnn_reshape input_tensor new_shape
  else _reshape_tiled input_tensor new_shape.

(** [_reshape_to_4D], lines 166-176. *)
Definition _reshape_to_4D_body (tensor : Tensor) : M Tensor :=
  let rank := length (dims (shape tensor)) in
  if bool_decide (rank = 4%nat) then ret tensor
  else if bool_decide (4 < rank)%nat
  then raise (RuntimeError msg_more_than_4D)
  else
    let num_missing_dims := (4 - rank)%nat in
    let new_dims := replicate num_missing_dims 1%Z ++ dims (shape tensor) in
    let full_shape :=
      replicate num_missing_dims 1%Z ++ padded (shape tensor) in
    fn__reshape rec tensor (ShapeArg (mkShape new_dims full_shape)).

(** The body of the loop of [unpad_with_pytorch], lines 230-233. *)
Definition unpad_dim (current_shape desired_shape : list Z)
    (tensor : TorchTensor) (dim : nat) : M TorchTensor :=
  match current_shape !! dim, desired_shape !! dim with
  | Some current, Some desired =>
      if (desired <? current)%Z
      then log call_torch_slice ;;;
           ret (torch.slice_dim tensor dim desired)
      else ret tensor
  | _, _ => raise (IndexError msg_out_of_range)
  end.

(** [unpad_with_pytorch], lines 222-235. *)
Definition unpad_with_pytorch (ttnn_tensor : Tensor) : M Tensor :=
  let current_shape := padded (shape ttnn_tensor) in
  let desired_shape := dims (shape ttnn_tensor) in
  ttl_tensor <-
    (if bool_decide (layout ttnn_tensor <> ROW_MAJOR_LAYOUT)
     then ttl.to_layout ttnn_tensor ROW_MAJOR_LAYOUT
     else ret ttnn_tensor) ;;
  tensor <- ttl.to_torch ttl_tensor ;;
  tensor <-
    foldl (fun (acc : M TorchTensor) (dim : nat) =>
             tensor <- acc ;;
             unpad_dim current_shape desired_shape tensor dim)
          (ret tensor) (seq 0 (length current_shape)) ;;
  fn_from_torch rec tensor None (Some ROW_MAJOR_LAYOUT) None None.

(** [Tensor(input_tensor.value if not layout_change_needed else
    input_tensor.value.to(layout))], lines 278-280, 288-290, 294-296. *)
Definition value_in_layout (layout_change_needed : bool)
    (input_tensor : Tensor) (lay : Layout) : M Tensor :=
  if negb layout_change_needed then ret input_tensor
  else ttl.to_layout input_tensor lay.

(** Lines 277-282 and 287-292: to rank 4, then [unpad_from_tile]. *)
Definition unpad_on_host (layout_change_needed : bool)
    (input_tensor : Tensor) (lay : Layout) : M Tensor :=
  input_tensor <- fn__reshape_to_4D rec input_tensor ;;
  input_tensor <- value_in_layout layout_change_needed input_tensor lay ;;
  ttl.unpad_from_tile input_tensor (dims (shape input_tensor)).

(** Lines 272-284: the unpadding of the copy [from_device] returned. *)
Definition unpad_host_copy (layout_change_needed : bool)
    (input_tensor : Tensor) (lay : Layout) : M Tensor :=
  input_tensor <-
    (if layout_change_needed then ttl.to_layout input_tensor lay
     else ret input_tensor) ;;
  let batch_shape_dim := but_last_two (dims (shape input_tensor)) in
  let batch_padded_dim := but_last_two (padded (shape input_tensor)) in
  if bool_decide (batch_shape_dim = batch_padded_dim)
  then unpad_on_host layout_change_needed input_tensor lay
  else unpad_with_pytorch input_tensor.

(** [impl] of [to_layout] for [ROW_MAJOR_LAYOUT], lines 255-299. *)
Definition to_row_major (necessary_to_change_padding layout_change_needed
    is_on_device : bool) (intended_shape : list Z) (input_tensor : Tensor)
    (lay : Layout) : M Tensor :=
  output_tensor <-
    (if is_on_device
     then
       rest_width <- lift (unpack_last (dims (shape input_tensor))) ;;
       let width := snd rest_width in
       if layout_change_needed && (width mod 2 =? 0)%Z
       then (* Can only unpad to row major tensor of even width *)
         input_tensor <- fn__reshape_to_4D rec input_tensor ;;
         let intended_4D_shape :=
           map (fun x => (x - 1)%Z) (dims (shape input_tensor)) in
         ttl.untilize_with_unpadding input_tensor [0; 0; 0; 0]%Z
           intended_4D_shape
       else
         input_tensor <- from_device input_tensor ;;
         unpad_host_copy layout_change_needed input_tensor lay
     else
       if necessary_to_change_padding
       then unpad_on_host layout_change_needed input_tensor lay
       else if layout_change_needed
       then value_in_layout layout_change_needed input_tensor lay
       else raise (UnboundLocalError msg_unbound)) ;;
  fn__reshape rec output_tensor (TupleArg intended_shape).

(** [impl] of [to_layout] for [TILE_LAYOUT], lines 300-330. *)
Definition to_tile (is_on_device : bool) (tensor : Tensor) (lay : Layout)
    : M Tensor :=
  bhw <-
    (if (1 <? length (dims (shape tensor)))%nat
     then lift (unpack_last_two (dims (shape tensor)))
     else
       bw <- lift (unpack_last (dims (shape tensor))) ;;
       ret (fst bw, 1%Z, snd bw)) ;;
  let '(original_batch_sizes, height, width) := bhw in
  let pad_h := ((TILE_SIZE - height mod TILE_SIZE) mod TILE_SIZE)%Z in
  let pad_w := ((TILE_SIZE - width mod TILE_SIZE) mod TILE_SIZE)%Z in
  let padded_height := (height + pad_h)%Z in
  let padded_width := (width + pad_w)%Z in
  tensor <- fn__reshape_to_4D rec tensor ;;
  bs <- lift (unpack_last_two (dims (shape tensor))) ;;
  let batch_sizes := fst (fst bs) in
  tensor <-
    (if bool_decide (layout tensor = ROW_MAJOR_LAYOUT) && is_on_device
     then ttl.tilize_with_val_padding tensor
            (batch_sizes ++ [padded_height; padded_width])
            [0; 0; 0; 0]%Z 0
     else if bool_decide (layout tensor = ROW_MAJOR_LAYOUT)
     then
       padded_tensor <- ttl.pad tensor
                          (batch_sizes ++ [padded_height; padded_width])
                          [0; 0; 0; 0]%Z 0 ;;
       ttl.to_layout padded_tensor lay
     else ret tensor) ;;
  fn__reshape rec tensor
    (ShapeArg (mkShape (original_batch_sizes ++ [height; width])
                 (original_batch_sizes ++ [padded_height; padded_width]))).

(** [to_layout], lines 179-332. *)
Definition to_layout_body (tensor : Tensor) (lay : Layout) : M Tensor :=
  let necessary_to_change_padding :=
    requires_padding_change lay (shape tensor) in
  let layout_change_needed := negb (bool_decide (layout tensor = lay)) in
  if negb necessary_to_change_padding && negb layout_change_needed
  then ret tensor
  else
    let is_on_device := has_storage_type_of tensor DEVICE in
    let intended_shape := dims (shape tensor) in
    if layout_change_needed && negb necessary_to_change_padding
    then
      if is_on_device
      then match lay with
           | ROW_MAJOR => ttl.untilize tensor
           | TILE => ttl.tilize tensor (ttl.memory_config tensor)
           end
      else ttl.to_layout tensor lay
    else
      match lay with
      | ROW_MAJOR =>
          to_row_major necessary_to_change_padding layout_change_needed
            is_on_device intended_shape tensor lay
      | TILE => to_tile is_on_device tensor lay
      end.

(** [from_torch], lines 335-378. *)
Definition from_torch_body (tensor : TorchTensor) (dt : option DataType)
    (lay : option Layout) (dev : option Device)
    (memory_config : option MemoryConfig) : M Tensor :=
  match memory_config, dev with
  | Some _, None => raise (RuntimeError msg_device_required)
  | _, _ =>
      tensor <- ttl.Tensor_from_torch tensor dt ;;
      tensor <-
        match lay with
        | Some l => fn_to_layout rec tensor l
        | None => ret tensor
        end ;;
      match dev with
      | Some d =>
          to_device tensor d (default DRAM_MEMORY_CONFIG memory_config)
      | None => ret tensor
      end
  end.

(** [to_torch], lines 381-415. *)
Definition to_torch_body (tensor : Tensor) : M TorchTensor :=
  tensor <-
    (if has_storage_type_of tensor DEVICE_STORAGE_TYPE
     then from_device tensor else ret tensor) ;;
  tensor <-
    (if bool_decide (layout tensor <> ROW_MAJOR_LAYOUT)
     then fn_to_layout rec tensor ROW_MAJOR_LAYOUT else ret tensor) ;;
  let ttl_tensor := tensor in
  ttl.reshape ttl_tensor (Shape_of (padded (shape tensor))) ;;;
  if bool_decide (ttl.storage_type ttl_tensor = DEVICE_STORAGE_TYPE)
  then raise (RuntimeError msg_to_torch_device)
  else if bool_decide (layout ttl_tensor <> ROW_MAJOR_LAYOUT)
  then raise (RuntimeError msg_to_torch_layout)
  else ttl.to_torch ttl_tensor.

End bodies.

(** The functions at a given depth of calls: at depth 0 every call fails
    as the interpreter does when its recursion limit is reached. *)
Fixpoint at_depth (fuel : nat) : functions :=
  match fuel with
  | O =>
      mkFunctions (fun _ _ => raise RecursionError)
        (fun _ => raise RecursionError)
        (fun _ _ => raise RecursionError)
        (fun _ _ _ _ _ => raise RecursionError)
        (fun _ => raise RecursionError)
  | S fuel' =>
      let rec := at_depth fuel' in
      mkFunctions (_reshape_body rec) (_reshape_to_4D_body rec)
        (to_layout_body rec) (from_torch_body rec) (to_torch_body rec)
  end.

Definition _reshape (fuel : nat) := fn__reshape (at_depth fuel).
Definition _reshape_to_4D (fuel : nat) := fn__reshape_to_4D (at_depth fuel).
Definition to_layout (fuel : nat) := fn_to_layout (at_depth fuel).
Definition from_torch (fuel : nat) := fn_from_torch (at_depth fuel).
Definition to_torch (fuel : nat) := fn_to_torch (at_depth fuel).

(** [torch_getitem], lines 57-58. *)
Definition torch_getitem (tensor : TorchTensor)
    (slices : list torch.index_item) : M TorchTensor :=
  log call_torch_getitem ;;;
  lift (torch.getitem tensor slices).

(** [Tensor.__getitem__], lines 52-77. *)
Definition __getitem__ (fuel : nat) (self : Tensor)
    (slices : list torch.index_item) : M Tensor :=
  if bool_decide (layout self <> ROW_MAJOR_LAYOUT)
  then raise (RuntimeError msg_slicing)
  else if has_storage_type_of self DEVICE_STORAGE_TYPE
  then
    let tensor := self in
    dev <- lift (device tensor) ;;
    tensor <- from_device tensor ;;
    tensor <- to_torch fuel tensor ;;
    tensor <- torch_getitem tensor slices ;;
    tensor <- from_torch fuel tensor (Some (dtype self))
                (Some ROW_MAJOR_LAYOUT) None None ;;
    to_device tensor dev DRAM_MEMORY_CONFIG
  else
    let tensor := self in
    tensor <- to_torch fuel tensor ;;
    tensor <- torch_getitem tensor slices ;;
    from_torch fuel tensor (Some (dtype self)) (Some ROW_MAJOR_LAYOUT)
      None None.

(** ** Well-formed worlds and tensors *)

(** The ids of the live buffers are below [next]: a buffer that is
    allocated later is a new one. *)
Definition world_ok (w : World) : Prop :=
  forall (b : nat) (data : list Z), heap w !! b = Some data -> (b < next w)%nat.

(** The invariant of the data model on row-major tensors: the padded
    dimensions are the logical ones. *)
Definition padding_trivial (s : Shape) : Prop := padded s = dims s.

(** [x] is the smallest multiple of 32 that is at least [n]. *)
Definition smallest_tile_multiple (n x : Z) : Prop :=
  (x mod TILE_SIZE = 0)%Z /\ (n <= x)%Z /\
  forall y : Z, (y mod TILE_SIZE = 0)%Z -> (n <= y)%Z -> (x <= y)%Z.

(** ** What a run adds to the list of calls *)

(** The kernels of the device. *)
Definition device_kernel (c : call) : bool :=
  match c with
  | call_tilize | call_untilize | call_tilize_with_val_padding
  | call_untilize_with_unpadding | call_device_reshape => true
  | _ => false
  end.

(** The calls that work on host tensors and host arrays. *)
Definition host_call (c : call) : bool :=
  match c with
  | call_to_layout | call_reshape | call_to_torch | call_from_torch
  | call_pad | call_unpad_from_tile | call_torch_reshape
  | call_torch_slice => true
  | _ => false
  end.

(** Every run of [m] adds to the list of calls only calls that satisfy
    [P], and a value it returns satisfies [Q]. *)
Definition adds_only {A} (P : call -> Prop) (Q : A -> Prop) (m : M A) : Prop :=
  forall (w : World) (r : result A) (w' : World),
    m w = (r, w') ->
    (exists new, calls w' = new ++ calls w /\ Forall P new) /\
    (forall a, r = Ok a -> Q a).

Definition on_host (t : Tensor) : Prop := storage t = HostStorage.

Definition any_call (c : call) : Prop := True.
Definition anything {A : Type} (a : A) : Prop := True.

(** The functions of the module only add calls that satisfy [P]. *)
Definition functions_add_only (P : call -> Prop) (rec : functions) : Prop :=
  (forall t arg, adds_only P anything (fn__reshape rec t arg)) /\
  (forall t, adds_only P anything (fn__reshape_to_4D rec t)) /\
  (forall t lay, adds_only P anything (fn_to_layout rec t lay)) /\
  (forall a dt lay dev mc,
     adds_only P anything (fn_from_torch rec a dt lay dev mc)) /\
  (forall t, adds_only P anything (fn_to_torch rec t)).

(** On host tensors the functions of the module make host calls only and
    return host tensors. *)
Definition host_only (c : call) : Prop := host_call c = true.

Definition host_functions (rec : functions) : Prop :=
  (forall t arg,
     on_host t -> adds_only host_only on_host (fn__reshape rec t arg)) /\
  (forall t,
     on_host t -> adds_only host_only on_host (fn__reshape_to_4D rec t)) /\
  (forall t lay,
     on_host t -> adds_only host_only on_host (fn_to_layout rec t lay)) /\
  (forall a dt lay,
     adds_only host_only on_host (fn_from_torch rec a dt lay None None)) /\
  (forall t, on_host t -> adds_only host_only anything (fn_to_torch rec t)).

(** ** The layout of what the functions return *)

(** The layout of [r] is that of [t], or row-major. *)
Definition same_or_row_major (t r : Tensor) : Prop :=
  layout r = layout t \/ layout r = ROW_MAJOR.

(** The last two padded dimensions are multiples of 32. *)
Definition tile_aligned (s : Shape) : Prop :=
  exists b ph pw,
    padded s = b ++ [ph; pw] /\
    (ph mod TILE_SIZE = 0)%Z /\ (pw mod TILE_SIZE = 0)%Z.

Definition has_layout (lay : Layout) (r : Tensor) : Prop := layout r = lay.

Definition layout_functions (rec : functions) : Prop :=
  (forall t arg,
     adds_only any_call (same_or_row_major t) (fn__reshape rec t arg)) /\
  (forall t s,
     layout t = TILE -> tile_aligned s ->
     adds_only any_call (has_layout TILE) (fn__reshape rec t (ShapeArg s))) /\
  (forall t, adds_only any_call (same_or_row_major t) (fn__reshape_to_4D rec t)) /\
  (forall t lay, adds_only any_call (has_layout lay) (fn_to_layout rec t lay)) /\
  (forall a dt lay dev mc,
     adds_only any_call (has_layout (default ROW_MAJOR lay))
       (fn_from_torch rec a dt lay dev mc)).

(** ** Running the monad *)

Lemma bind_ok {A B} (m : M A) (k : A -> M B) w a w' :
  m w = (Ok a, w') -> bind m k w = k a w'.
Proof. intros H. unfold bind. now rewrite H. Qed.

Lemma bind_raise {A B} (m : M A) (k : A -> M B) w e w' :
  m w = (Raise e, w') -> bind m k w = (Raise e, w').
Proof. intros H. unfold bind. now rewrite H. Qed.

Lemma bind_ret {A B} (a : A) (k : A -> M B) w : bind (ret a) k w = k a w.
Proof. reflexivity. Qed.

Lemma bind_lift_ok {A B} (a : A) (k : A -> M B) w :
  bind (lift (Ok a)) k w = k a w.
Proof. reflexivity. Qed.

(** ** The no-op path of [to_layout] *)

Lemma to_layout_unchanged (fuel : nat) (tensor : Tensor) (lay : Layout)
    (w : World) :
  layout tensor = lay ->
  requires_padding_change lay (shape tensor) = false ->
  to_layout (S fuel) tensor lay w = (Ok tensor, w).
Proof.
  intros Hlay Hpad.
  unfold to_layout. simpl. unfold to_layout_body.
  rewrite Hpad. rewrite bool_decide_eq_true_2 by exact Hlay.
  reflexivity.
Qed.

(** C5: a tensor that already has the requested layout, and for which
    [requires_padding_change] answers false, is returned as it is by
    [to_layout]: the result is the input tensor, no buffer is allocated
    or released and no call leaves the module. *)
Theorem to_layout_same_layout_no_padding_change :
  forall (fuel : nat) (tensor : Tensor) (lay : Layout) (w : World),
    layout tensor = lay ->
    requires_padding_change lay (shape tensor) = false ->
    to_layout (S fuel) tensor lay w = (Ok tensor, w).
Proof.
  intros fuel tensor lay w Hlay Hpad. now apply to_layout_unchanged.
Qed.

Lemma to_layout_same_layout_no_padding_change_witness :
  let tensor :=
    mkTensor BFLOAT16 TILE (DeviceStorage 0 L1_MEMORY_CONFIG)
      (mkShape [10; 20]%Z [32; 32]%Z) 0 in
  let w := mkWorld {[ 0%nat := replicate 1024 0%Z ]} 1 [] in
  to_layout 1 tensor TILE w = (Ok tensor, w).
Proof.
  intros tensor w.
  apply (to_layout_same_layout_no_padding_change 0 tensor TILE w);
    reflexivity.
Defined.

(** ** Indexing a tensor that is not row-major *)

(** C8: [Tensor.__getitem__] on a tensor whose layout is not row-major
    raises the LayoutError of the module, and nothing else happens: no
    transfer, no slicing, no allocation. *)
Theorem getitem_tiled_raises :
  forall (fuel : nat) (self : Tensor) (slices : list torch.index_item)
         (w : World),
    layout self <> ROW_MAJOR_LAYOUT ->
    exists e, LayoutError e /\ __getitem__ fuel self slices w = (Raise e, w).
Proof.
  intros fuel self slices w Hlay.
  exists (RuntimeError msg_slicing). split; [reflexivity|].
  unfold __getitem__. rewrite bool_decide_eq_true_2 by exact Hlay.
  reflexivity.
Qed.

Lemma getitem_tiled_raises_witness :
  let self :=
    mkTensor BFLOAT16 TILE (DeviceStorage 0 DRAM_MEMORY_CONFIG)
      (mkShape [10; 20]%Z [32; 32]%Z) 0 in
  let w := mkWorld {[ 0%nat := replicate 1024 0%Z ]} 1 [] in
  exists e, LayoutError e /\
    __getitem__ 4 self [torch.Range None (Some 3%Z)] w = (Raise e, w).
Proof.
  intros self w.
  apply (getitem_tiled_raises 4 self [torch.Range None (Some 3%Z)] w).
  discriminate.
Defined.

(** ** [from_torch] with a memory config and no device *)

(** C10: [from_torch] called with a [memory_config] and without a device
    raises "device must be specified when memory_config is specified"
    before anything else: the world is as it was, so no tensor was built,
    no layout changed and nothing was transferred. *)
Theorem from_torch_memory_config_without_device :
  forall (fuel : nat) (tensor : TorchTensor) (dt : option DataType)
         (lay : option Layout) (memory_config : MemoryConfig) (w : World),
    from_torch (S fuel) tensor dt lay None (Some memory_config) w
    = (Raise (RuntimeError msg_device_required), w).
Proof. reflexivity. Qed.

(** ** [from_device] on a host tensor *)

(** C6: with [cpu] as the specification describes it, [from_device] on a
    tensor that is already on host raises a StorageError; it does not
    return the tensor, and no buffer is touched. *)
Theorem from_device_on_host_raises :
  forall (tensor : Tensor) (w : World),
    storage tensor = HostStorage ->
    exists e w',
      is_StorageError e /\ from_device tensor w = (Raise e, w') /\
      heap w' = heap w /\ next w' = next w.
Proof.
  intros tensor w Hhost.
  exists (StorageError ttl.msg_already_on_host).
  eexists. split; [now eexists|].
  unfold from_device, ttl.cpu. rewrite Hhost. cbn. auto.
Qed.

Lemma from_device_on_host_raises_witness :
  let tensor :=
    mkTensor BFLOAT16 ROW_MAJOR HostStorage (mkShape [2; 3]%Z [2; 3]%Z) 0 in
  let w := mkWorld {[ 0%nat := replicate 6 0%Z ]} 1 [] in
  exists e w',
    is_StorageError e /\ from_device tensor w = (Raise e, w') /\
    heap w' = heap w /\ next w' = next w.
Proof.
  intros tensor w.
  apply (from_device_on_host_raises tensor w). reflexivity.
Defined.

(** ** Products and the wildcard *)

Lemma index_lookup (l : list Z) (x : Z) (i : nat) :
  index l x = Some i -> l !! i = Some x.
Proof.
  revert i. induction l as [|y l IH]; intros i; simpl; [discriminate|].
  destruct (decide (y = x)) as [->|Hne].
  - intros [= <-]. reflexivity.
  - destruct (index l x) as [j|] eqn:Hj; simpl; [|discriminate].
    intros [= <-]. simpl. now apply IH.
Qed.

Lemma prod_delete (l : list Z) (i : nat) (x : Z) :
  l !! i = Some x -> prod l = (x * prod (delete i l))%Z.
Proof.
  revert i. induction l as [|y l IH]; intros [|i]; simpl; try discriminate.
  - intros [= ->]. reflexivity.
  - intros H. unfold prod in *. simpl. rewrite (IH i H). lia.
Qed.

Lemma prod_insert (l : list Z) (i : nat) (x v : Z) :
  l !! i = Some x -> prod (<[i := v]> l) = (v * prod (delete i l))%Z.
Proof.
  revert i. induction l as [|y l IH]; intros [|i]; simpl; try discriminate.
  - intros _. reflexivity.
  - intros H. unfold prod in *. simpl. rewrite (IH i H). lia.
Qed.

Lemma reshape_of_resolved (fuel : nat) (t : Tensor) (arg : shape_arg)
    (s : Shape) (w : World) :
  resolve_shape t arg = Ok s ->
  _reshape (S fuel) t arg w = _reshape (S fuel) t (ShapeArg s) w.
Proof.
  intros H. unfold _reshape. simpl. unfold _reshape_body.
  rewrite H. reflexivity.
Qed.

(** C2, as the code has it: a tuple with more than one [-1] makes
    [_reshape] raise the ShapeError "Shape cannot have more than 1
    elements that is set to -1!"; in a tuple with exactly one [-1], at
    index [i], whose other entries have a positive product [k], the [-1]
    is replaced by the volume [n] of the tensor floor-divided by [k], and
    [_reshape] goes on with that shape; when [k] divides [n] the resolved
    shape has volume [n].  No divisibility check is made. *)
Theorem reshape_wildcard_resolution :
  forall (fuel : nat) (t : Tensor) (l : list Z) (w : World),
    ((1 < count l (-1))%nat ->
     ShapeError (RuntimeError msg_wildcards) /\
     _reshape (S fuel) t (TupleArg l) w = (Raise (RuntimeError msg_wildcards), w))
    /\
    (forall i : nat,
       count l (-1) = 1%nat ->
       index l (-1) = Some i ->
       (0 < prod (delete i l))%Z ->
       let n := prod (dims (shape t)) in
       let k := prod (delete i l) in
       let resolved := <[i := (n / k)%Z]> l in
       resolve_shape t (TupleArg l) = Ok (Shape_of resolved) /\
       _reshape (S fuel) t (TupleArg l) w
       = _reshape (S fuel) t (ShapeArg (Shape_of resolved)) w /\
       ((n mod k = 0)%Z -> prod resolved = n)).
Proof.
  intros fuel t l w. split.
  - intros Hcount. split; [now left|].
    unfold _reshape. simpl. unfold _reshape_body, resolve_shape.
    destruct (count l (-1) <=? 1)%nat eqn:Hle.
    + apply Nat.leb_le in Hle. lia.
    + reflexivity.
  - intros i Hcount Hindex Hk n k resolved.
    pose proof (index_lookup _ _ _ Hindex) as Hlook.
    assert (Hres : resolve_shape t (TupleArg l) = Ok (Shape_of resolved)).
    { unfold resolve_shape. rewrite Hcount. simpl.
      rewrite (prod_delete l i (-1) Hlook).
      fold k.
      destruct (-1 * k <? 0)%Z eqn:Hneg.
      - rewrite Hindex. unfold resolved, n.
        replace (- (-1 * k))%Z with k by lia. reflexivity.
      - apply Z.ltb_ge in Hneg. unfold k in Hneg. lia. }
    split; [exact Hres|]. split.
    + now apply reshape_of_resolved.
    + intros Hdiv. unfold resolved.
      rewrite (prod_insert l i (-1) _ Hlook). fold k.
      pose proof (Z.div_mod n k ltac:(unfold k; lia)) as Hdm. nia.
Qed.

Lemma reshape_wildcard_resolution_witness :
  let t :=
    mkTensor BFLOAT16 ROW_MAJOR HostStorage
      (mkShape [2; 3; 4]%Z [2; 3; 4]%Z) 0 in
  resolve_shape t (TupleArg [-1; 6]%Z) = Ok (Shape_of [4; 6]%Z) /\
  prod [4; 6]%Z = 24%Z /\
  _reshape 1 t (TupleArg [-1; -1; 6]%Z) (mkWorld ∅ 1 [])
  = (Raise (RuntimeError msg_wildcards), mkWorld ∅ 1 []).
Proof.
  intros t.
  destruct (reshape_wildcard_resolution 0 t [-1; 6]%Z (mkWorld ∅ 1 []))
    as [_ Hone].
  destruct (Hone 0%nat eq_refl eq_refl eq_refl) as (Hres & _ & Hvol).
  destruct (reshape_wildcard_resolution 0 t [-1; -1; 6]%Z (mkWorld ∅ 1 []))
    as [Hmany _].
  split; [exact Hres|]. split; [exact (Hvol eq_refl)|].
  apply Hmany. vm_compute. lia.
Defined.

(** C2 as stated fails where the volume is not a multiple of the product
    of the other entries: for a tensor of shape (2, 3, 4) and the tuple
    (-1, 5), the wildcard becomes 24 // 5 = 4 and [_reshape] hands the
    shape (4, 5) to the reshape of [tt_lib]; no ShapeError is raised. *)
Lemma reshape_wildcard_not_divisible :
  let t :=
    mkTensor BFLOAT16 ROW_MAJOR HostStorage
      (mkShape [2; 3; 4]%Z [2; 3; 4]%Z) 0 in
  let w := mkWorld {[ 0%nat := replicate 24 0%Z ]} 1 [] in
  count [-1; 5]%Z (-1) = 1%nat /\
  prod (dims (shape t)) = 24%Z /\
  (24 mod 5 <> 0)%Z /\
  resolve_shape t (TupleArg [-1; 5]%Z) = Ok (Shape_of [4; 5]%Z) /\
  _reshape 1 t (TupleArg [-1; 5]%Z) w = ttl.reshape t (Shape_of [4; 5]%Z) w /\
  ~ (exists e w', ShapeError e /\
       _reshape 1 t (TupleArg [-1; 5]%Z) w = (Raise e, w')).
Proof.
  intros t w. repeat split; try reflexivity; try discriminate.
  intros (e & w' & _ & H). vm_compute in H. discriminate.
Qed.

(** ** The limit of four dimensions *)

(** C1, as the code has it: the limit is checked on the tensor, by
    [_reshape_to_4D], which raises the ShapeError "Tensor cannot have more
    than 4 dimensions!" for every tensor of rank above 4 and does nothing
    else; [_reshape] on such a tensor, for a request that resolves to the
    current shape of the tensor, returns the tensor as it is and raises
    nothing. *)
Theorem reshape_to_4D_rank_limit :
  forall (fuel : nat) (tensor : Tensor) (w : World),
    (4 < length (dims (shape tensor)))%nat ->
    ShapeError (RuntimeError msg_more_than_4D) /\
    _reshape_to_4D (S fuel) tensor w = (Raise (RuntimeError msg_more_than_4D), w) /\
    (forall arg : shape_arg,
       resolve_shape tensor arg = Ok (shape tensor) ->
       _reshape (S fuel) tensor arg w = (Ok tensor, w)).
Proof.
  intros fuel tensor w Hrank. split; [now right|]. split.
  - unfold _reshape_to_4D. simpl. unfold _reshape_to_4D_body.
    rewrite bool_decide_eq_false_2 by lia.
    rewrite bool_decide_eq_true_2 by lia. reflexivity.
  - intros arg Hres. unfold _reshape. simpl. unfold _reshape_body.
    rewrite Hres, bind_lift_ok.
    rewrite !bool_decide_eq_true_2 by reflexivity.
    reflexivity.
Qed.

Lemma reshape_to_4D_rank_limit_witness :
  let tensor :=
    mkTensor BFLOAT16 ROW_MAJOR HostStorage
      (mkShape [1; 2; 3; 4; 5]%Z [1; 2; 3; 4; 5]%Z) 0 in
  let w := mkWorld {[ 0%nat := replicate 120 0%Z ]} 1 [] in
  _reshape_to_4D 1 tensor w = (Raise (RuntimeError msg_more_than_4D), w) /\
  _reshape 1 tensor (TupleArg [1; 2; 3; -1; 5]%Z) w = (Ok tensor, w).
Proof.
  intros tensor w.
  destruct (reshape_to_4D_rank_limit 0 tensor w) as (_ & H4D & Hsame).
  { simpl. lia. }
  split; [exact H4D|]. apply Hsame. reflexivity.
Defined.

(** C1 as stated fails: a request of rank 5 does not make [_reshape]
    raise.  A tensor of shape (1, 2, 3, 4, 5) asked for that same shape
    comes back unchanged, and a host tensor of shape (2, 3, 4, 5) asked
    for (1, 2, 3, 4, 5) is handed to the reshape of [tt_lib] with the
    shape of rank 5. *)
Lemma reshape_rank_5_does_not_raise :
  let t5 :=
    mkTensor BFLOAT16 ROW_MAJOR HostStorage
      (mkShape [1; 2; 3; 4; 5]%Z [1; 2; 3; 4; 5]%Z) 0 in
  let t4 :=
    mkTensor BFLOAT16 ROW_MAJOR HostStorage
      (mkShape [2; 3; 4; 5]%Z [2; 3; 4; 5]%Z) 0 in
  let w := mkWorld {[ 0%nat := replicate 120 0%Z ]} 1 [] in
  resolve_shape t5 (TupleArg [1; 2; 3; 4; 5]%Z)
  = Ok (Shape_of [1; 2; 3; 4; 5]%Z) /\
  (4 < length (dims (Shape_of [1; 2; 3; 4; 5]%Z)))%nat /\
  _reshape 1 t5 (TupleArg [1; 2; 3; 4; 5]%Z) w = (Ok t5, w) /\
  _reshape 1 t4 (TupleArg [1; 2; 3; 4; 5]%Z) w
  = ttl.reshape t4 (Shape_of [1; 2; 3; 4; 5]%Z) w.
Proof.
  intros t5 t4 w. repeat split. simpl. lia.
Qed.

(** ** Transfers and conversions, step by step *)

Lemma from_device_on_device (t : Tensor) (w : World) d mc data :
  storage t = DeviceStorage d mc ->
  heap w !! buffer t = Some data ->
  from_device t w
  = (Ok (mkTensor (dtype t) (layout t) HostStorage (shape t) (next w)),
     mkWorld (<[next w := data]> (heap w)) (S (next w))
       (call_cpu :: calls w)).
Proof.
  intros Hst Hbuf. unfold from_device, ttl.cpu. rewrite Hst.
  unfold bind, log, read, ttl.fresh, bind, alloc, ret. simpl.
  rewrite Hbuf. reflexivity.
Qed.

Lemma to_device_on_host (t : Tensor) (w : World) d mc data :
  storage t = HostStorage ->
  heap w !! buffer t = Some data ->
  to_device t d mc w
  = (Ok (mkTensor (dtype t) (layout t) (DeviceStorage d mc) (shape t)
           (next w)),
     mkWorld (<[next w := data]> (heap w)) (S (next w))
       (call_to_device :: calls w)).
Proof.
  intros Hst Hbuf. unfold to_device, ttl.to_device. rewrite Hst.
  unfold bind, log, read, ttl.fresh, bind, alloc, ret. simpl.
  rewrite Hbuf. reflexivity.
Qed.

Lemma to_torch_on_host_row_major (fuel : nat) (t : Tensor) (w : World) data :
  storage t = HostStorage ->
  layout t = ROW_MAJOR ->
  heap w !! buffer t = Some data ->
  to_torch (S fuel) t w
  = (Ok (mkTorchTensor (ttl.dtype_to_torch (dtype t)) (padded (shape t)) data),
     mkWorld (heap w) (next w) (call_to_torch :: call_reshape :: calls w)).
Proof.
  intros Hst Hlay Hbuf. destruct t as [dt l st s b]. simpl in *. subst.
  unfold to_torch. simpl. unfold to_torch_body.
  unfold ttl.reshape, ttl.to_torch, bind, log, read, ret. simpl.
  rewrite Hbuf. reflexivity.
Qed.

Lemma requires_padding_change_row_major (s : Shape) :
  requires_padding_change ROW_MAJOR s
  = negb (bool_decide (last_two (dims s) = last_two (padded s))).
Proof.
  unfold requires_padding_change.
  rewrite (bool_decide_eq_true_2 (ROW_MAJOR = ROW_MAJOR_LAYOUT)) by reflexivity.
  rewrite (bool_decide_eq_false_2 (ROW_MAJOR = TILE_LAYOUT)) by discriminate.
  simpl. now destruct (bool_decide _).
Qed.

Lemma requires_padding_change_row_major_trivial (s : Shape) :
  padding_trivial s -> requires_padding_change ROW_MAJOR s = false.
Proof.
  intros H. rewrite requires_padding_change_row_major.
  rewrite bool_decide_eq_true_2; [reflexivity|]. now rewrite H.
Qed.

(** [from_torch(tensor, dtype)] with the default layout and no device: the
    row-major tensor of the constructor, which [to_layout] leaves alone. *)
Lemma from_torch_default (fuel : nat) (a : TorchTensor) (dt : option DataType)
    (w : World) :
  from_torch (S (S fuel)) a dt (Some ROW_MAJOR_LAYOUT) None None w
  = (Ok (mkTensor (default (ttl.dtype_of_torch (torch_dtype a)) dt) ROW_MAJOR
           HostStorage (Shape_of (torch_shape a)) (next w)),
     mkWorld (<[next w := torch_data a]> (heap w)) (S (next w))
       (call_from_torch :: calls w)).
Proof.
  unfold from_torch.
  change (fn_from_torch (at_depth (S (S fuel))))
    with (from_torch_body (at_depth (S fuel))).
  unfold from_torch_body.
  unfold ttl.Tensor_from_torch, ttl.fresh.
  unfold bind at 1. unfold bind at 1. unfold log at 1.
  unfold bind at 1. unfold alloc at 1. unfold ret at 1.
  cbv beta iota.
  change (fn_to_layout (at_depth (S fuel))) with (to_layout (S fuel)).
  erewrite bind_ok
    by (apply to_layout_unchanged;
        [reflexivity|now apply requires_padding_change_row_major_trivial]).
  reflexivity.
Qed.

(** ** Indexing a row-major tensor on a device *)

(** The run of [Tensor.__getitem__] on a row-major device tensor whose
    buffer is alive, when the index expression is valid for the host
    array: three buffers are allocated (the host copy, the sliced array,
    the device copy of the sliced array). *)
Lemma getitem_on_device (fuel : nat) (self : Tensor)
    (slices : list torch.index_item) (w : World) d mc data a :
  layout self = ROW_MAJOR ->
  storage self = DeviceStorage d mc ->
  heap w !! buffer self = Some data ->
  torch.getitem
    (mkTorchTensor (ttl.dtype_to_torch (dtype self)) (padded (shape self)) data)
    slices = Ok a ->
  __getitem__ (S (S fuel)) self slices w
  = (Ok (mkTensor (dtype self) ROW_MAJOR (DeviceStorage d DRAM_MEMORY_CONFIG)
           (Shape_of (torch_shape a)) (S (S (next w)))),
     mkWorld
       (<[S (S (next w)) := torch_data a]>
          (<[S (next w) := torch_data a]> (<[next w := data]> (heap w))))
       (S (S (S (next w))))
       (call_to_device :: call_from_torch :: call_torch_getitem
        :: call_to_torch :: call_reshape :: call_cpu :: calls w)).
Proof.
  intros Hlay Hst Hbuf Hget. unfold __getitem__.
  rewrite bool_decide_eq_false_2 by (rewrite Hlay; intros H; now apply H).
  unfold has_storage_type_of, ttl.storage_type, device.
  unfold has_storage_type_of, ttl.storage_type. rewrite Hst.
  rewrite bool_decide_eq_true_2 by reflexivity.
  rewrite bind_lift_ok.
  erewrite bind_ok by (eapply from_device_on_device; eassumption).
  erewrite bind_ok.
  2:{ apply to_torch_on_host_row_major with (data := data);
        [reflexivity|exact Hlay|]. simpl. apply lookup_insert_eq. }
  simpl.
  unfold torch_getitem. unfold bind at 2. unfold log at 1.
  unfold bind at 1. unfold bind at 1. unfold lift at 1. rewrite Hget.
  rewrite from_torch_default. simpl.
  erewrite to_device_on_host; [reflexivity|reflexivity|].
  simpl. apply lookup_insert_eq.
Qed.

(** C7: indexing a row-major tensor on a device, with a valid index
    expression, returns a tensor on the same device, whose logical shape
    is that of the sliced array and whose dtype is the input's, in a
    buffer that did not exist before and differs from the source buffer;
    the source buffer, like every buffer alive before, is still alive
    with the same elements. *)
Theorem getitem_device_row_major :
  forall (fuel : nat) (self : Tensor) (slices : list torch.index_item)
         (w : World) (d : Device) (mc : MemoryConfig) (data : list Z)
         (a : TorchTensor),
    layout self = ROW_MAJOR ->
    storage self = DeviceStorage d mc ->
    padding_trivial (shape self) ->
    world_ok w ->
    heap w !! buffer self = Some data ->
    torch.getitem
      (mkTorchTensor (ttl.dtype_to_torch (dtype self)) (dims (shape self)) data)
      slices = Ok a ->
    exists (result : Tensor) (w' : World),
      __getitem__ (S (S fuel)) self slices w = (Ok result, w') /\
      (exists mc', storage result = DeviceStorage d mc') /\
      dims (shape result) = torch_shape a /\
      dtype result = dtype self /\
      buffer result <> buffer self /\
      heap w !! buffer result = None /\
      heap w' !! buffer result = Some (torch_data a) /\
      (forall b x, heap w !! b = Some x -> heap w' !! b = Some x).
Proof.
  intros fuel self slices w d mc data a Hlay Hst Htriv Hok Hbuf Hget.
  rewrite <- Htriv in Hget.
  eexists. eexists. split.
  { eapply getitem_on_device; eassumption. }
  pose proof (Hok _ _ Hbuf) as Hlt. simpl.
  split; [now eexists|]. split; [reflexivity|]. split; [reflexivity|].
  split; [lia|]. split.
  { destruct (heap w !! S (S (next w))) as [x|] eqn:Hx; [|reflexivity].
    apply Hok in Hx. lia. }
  split; [apply lookup_insert_eq|].
  intros b x Hb. pose proof (Hok _ _ Hb) as Hblt.
  rewrite !lookup_insert_ne by lia. exact Hb.
Qed.

Lemma getitem_device_row_major_witness :
  let self :=
    mkTensor BFLOAT16 ROW_MAJOR (DeviceStorage 0 L1_MEMORY_CONFIG)
      (mkShape [4; 3; 2]%Z [4; 3; 2]%Z) 0 in
  let w := mkWorld {[ 0%nat := replicate 24 7%Z ]} 1 [] in
  exists (result : Tensor) (w' : World),
    __getitem__ 2 self [torch.Range (Some 1%Z) (Some 3%Z)] w
    = (Ok result, w') /\
    (exists mc', storage result = DeviceStorage 0 mc') /\
    dims (shape result) = [2; 3; 2]%Z /\
    dtype result = BFLOAT16 /\
    buffer result <> 0%nat /\
    heap w !! buffer result = None /\
    heap w' !! buffer result = Some (replicate 12 7%Z) /\
    (forall b x, heap w !! b = Some x -> heap w' !! b = Some x).
Proof.
  intros self w.
  apply (getitem_device_row_major 0 self [torch.Range (Some 1%Z) (Some 3%Z)]
           w 0%nat L1_MEMORY_CONFIG (replicate 24 7%Z)
           (mkTorchTensor torch_bfloat16 [2; 3; 2]%Z (replicate 12 7%Z)));
    try reflexivity.
  intros b x Hb. destruct (decide (b = 0%nat)) as [->|Hne]; [simpl; lia|].
  simpl in Hb. rewrite lookup_singleton_ne in Hb by congruence. discriminate.
Defined.

(** C9: the tensor [Tensor.__getitem__] returns for a row-major device
    tensor is placed on the device with [DRAM_MEMORY_CONFIG], whatever the
    memory config of the input: the device and the dtype are the
    input's, and an input in L1 gives a result in DRAM. *)
Theorem getitem_result_in_DRAM :
  forall (fuel : nat) (self : Tensor) (slices : list torch.index_item)
         (w : World) (d : Device) (mc : MemoryConfig) (data : list Z)
         (a : TorchTensor),
    layout self = ROW_MAJOR ->
    storage self = DeviceStorage d mc ->
    heap w !! buffer self = Some data ->
    torch.getitem
      (mkTorchTensor (ttl.dtype_to_torch (dtype self)) (padded (shape self))
         data)
      slices = Ok a ->
    exists (result : Tensor) (w' : World),
      __getitem__ (S (S fuel)) self slices w = (Ok result, w') /\
      storage result = DeviceStorage d DRAM_MEMORY_CONFIG /\
      dtype result = dtype self /\
      (mc = L1_MEMORY_CONFIG ->
       buffer_type (ttl.memory_config self) = L1 /\
       buffer_type (ttl.memory_config result) = DRAM).
Proof.
  intros fuel self slices w d mc data a Hlay Hst Hbuf Hget.
  eexists. eexists. split.
  { eapply getitem_on_device; eassumption. }
  simpl. split; [reflexivity|]. split; [reflexivity|].
  intros ->. unfold ttl.memory_config. rewrite Hst. split; reflexivity.
Qed.

Lemma getitem_result_in_DRAM_witness :
  let self :=
    mkTensor BFLOAT16 ROW_MAJOR (DeviceStorage 0 L1_MEMORY_CONFIG)
      (mkShape [4; 3; 2]%Z [4; 3; 2]%Z) 0 in
  let w := mkWorld {[ 0%nat := replicate 24 7%Z ]} 1 [] in
  exists (result : Tensor) (w' : World),
    __getitem__ 2 self [torch.Idx 0; torch.Idx 0; torch.Range None (Some 3%Z)]
      w = (Ok result, w') /\
    storage result = DeviceStorage 0 DRAM_MEMORY_CONFIG /\
    dtype result = BFLOAT16 /\
    (L1_MEMORY_CONFIG = L1_MEMORY_CONFIG ->
     buffer_type (ttl.memory_config self) = L1 /\
     buffer_type (ttl.memory_config result) = DRAM).
Proof.
  intros self w.
  apply (getitem_result_in_DRAM 0 self
           [torch.Idx 0; torch.Idx 0; torch.Range None (Some 3%Z)]
           w 0%nat L1_MEMORY_CONFIG (replicate 24 7%Z)
           (mkTorchTensor torch_bfloat16 [2]%Z (replicate 2 7%Z)));
    reflexivity.
Defined.

(** ** Rules for [adds_only] *)

Section adds_only_rules.

Context {A B : Type} (P : call -> Prop).

Lemma adds_only_ret (Q : A -> Prop) (a : A) : Q a -> adds_only P Q (ret a).
Proof.
  intros Ha w r w' [= <- <-]. split.
  - exists []. split; [reflexivity|constructor].
  - now intros ? [= <-].
Qed.

Lemma adds_only_raise (Q : A -> Prop) (e : exception) :
  adds_only P Q (raise e).
Proof.
  intros w r w' [= <- <-]. split.
  - exists []. split; [reflexivity|constructor].
  - discriminate.
Qed.

Lemma adds_only_lift (r : result A) :
  adds_only P (fun a => r = Ok a) (lift r).
Proof.
  intros w r' w' [= <- <-]. split.
  - exists []. split; [reflexivity|constructor].
  - auto.
Qed.

Lemma adds_only_weaken (Q Q' : A -> Prop) (m : M A) :
  adds_only P Q m -> (forall a, Q a -> Q' a) -> adds_only P Q' m.
Proof.
  intros Hm HQ w r w' Hrun. destruct (Hm w r w' Hrun) as [Hc Hr].
  split; [exact Hc|]. intros a Ha. apply HQ. now apply Hr.
Qed.

Lemma adds_only_bind (Q1 : A -> Prop) (Q : B -> Prop) (m : M A)
    (k : A -> M B) :
  adds_only P Q1 m ->
  (forall a, Q1 a -> adds_only P Q (k a)) ->
  adds_only P Q (bind m k).
Proof.
  intros Hm Hk w r w' Hrun. unfold bind in Hrun.
  destruct (m w) as [[a|e] w1] eqn:Hmw.
  - destruct (Hm w _ _ Hmw) as [(new1 & Hc1 & HP1) Hr1].
    destruct (Hk a (Hr1 a eq_refl) w1 r w' Hrun) as [(new2 & Hc2 & HP2) Hr2].
    split; [|exact Hr2].
    exists (new2 ++ new1). split.
    + rewrite Hc2, Hc1. now rewrite app_assoc.
    + exact (proj2 (Forall_app P new2 new1) (conj HP2 HP1)).
  - injection Hrun as <- <-. destruct (Hm w _ _ Hmw) as [Hc _].
    split; [exact Hc|discriminate].
Qed.

End adds_only_rules.

Lemma adds_only_log (P : call -> Prop) (c : call) :
  P c -> adds_only P (fun _ => True) (log c).
Proof.
  intros Hc w r w' [= <- <-]. split; [|auto].
  exists [c]. split; [reflexivity|]. now repeat constructor.
Qed.

Lemma adds_only_alloc (P : call -> Prop) (data : list Z) :
  adds_only P (fun _ => True) (alloc data).
Proof.
  intros w r w' [= <- <-]. split; [|auto].
  exists []. split; [reflexivity|constructor].
Qed.

Lemma adds_only_read (P : call -> Prop) (b : nat) :
  adds_only P (fun _ => True) (read b).
Proof.
  intros w r w' H. unfold read in H.
  destruct (heap w !! b); injection H as <- <-; (split; [|auto]);
    exists []; (split; [reflexivity|constructor]).
Qed.

Lemma adds_only_release (P : call -> Prop) (b : nat) :
  adds_only P (fun _ => True) (release b).
Proof.
  intros w r w' [= <- <-]. split; [|auto].
  exists []. split; [reflexivity|constructor].
Qed.

Lemma adds_only_fresh (P : call -> Prop) dt l st s data :
  adds_only P (fun t => storage t = st /\ layout t = l) (ttl.fresh dt l st s data).
Proof.
  unfold ttl.fresh. eapply adds_only_bind; [apply adds_only_alloc|].
  intros b _. now apply adds_only_ret.
Qed.

(** ** What the bindings add *)

Ltac logged HP :=
  eapply adds_only_bind; [apply adds_only_log; exact HP|]; intros _ _.

Ltac copied :=
  eapply adds_only_bind; [apply adds_only_read|]; intros ? _;
  eapply adds_only_weaken; [apply adds_only_fresh|];
  unfold on_host; cbv beta; intros ? [? ?]; auto.

Section bindings.

Variable P : call -> Prop.

Lemma adds_Tensor_from_torch a dt :
  P call_from_torch ->
  adds_only P (fun t => on_host t /\ layout t = ROW_MAJOR)
    (ttl.Tensor_from_torch a dt).
Proof.
  intros HP. unfold ttl.Tensor_from_torch. logged HP.
  eapply adds_only_weaken; [apply adds_only_fresh|]. unfold on_host. auto.
Qed.

Lemma adds_to_torch t :
  P call_to_torch -> adds_only P (fun _ => True) (ttl.to_torch t).
Proof.
  intros HP. unfold ttl.to_torch. logged HP.
  eapply adds_only_bind; [apply adds_only_read|]; intros ? _.
  now apply adds_only_ret.
Qed.

Lemma adds_cpu t :
  P call_cpu ->
  adds_only P (fun t' => on_host t' /\ layout t' = layout t) (ttl.cpu t).
Proof.
  intros HP. unfold ttl.cpu. logged HP.
  destruct (storage t); [apply adds_only_raise|copied].
Qed.

Lemma adds_to_device t dev mc :
  P call_to_device ->
  adds_only P (fun _ => True) (ttl.to_device t dev mc).
Proof.
  intros HP. unfold ttl.to_device. logged HP.
  destruct (storage t); [copied|apply adds_only_raise].
Qed.

Lemma adds_to_layout t l :
  P call_to_layout ->
  adds_only P (fun t' => on_host t' /\ layout t' = l) (ttl.to_layout t l).
Proof.
  intros HP. unfold ttl.to_layout. logged HP.
  destruct (storage t) eqn:Hst; [|apply adds_only_raise].
  apply adds_only_ret. split; reflexivity.
Qed.

Lemma adds_reshape t s :
  P call_reshape ->
  adds_only P (fun t' => storage t' = storage t /\ layout t' = layout t)
    (ttl.reshape t s).
Proof.
  intros HP. unfold ttl.reshape. logged HP.
  apply adds_only_ret. split; reflexivity.
Qed.

Lemma adds_tensor_reshape t w z y x :
  P call_device_reshape ->
  adds_only P (fun _ => True) (ttl.tensor_reshape t w z y x).
Proof. intros HP. unfold ttl.tensor_reshape. logged HP. copied. Qed.

Lemma adds_tilize t mc :
  P call_tilize -> adds_only P (fun _ => True) (ttl.tilize t mc).
Proof.
  intros HP. unfold ttl.tilize. logged HP.
  destruct (storage t); [apply adds_only_raise|copied].
Qed.

Lemma adds_untilize t :
  P call_untilize -> adds_only P (fun _ => True) (ttl.untilize t).
Proof.
  intros HP. unfold ttl.untilize. logged HP.
  destruct (storage t); [apply adds_only_raise|copied].
Qed.

Lemma adds_tilize_with_val_padding t out start v :
  P call_tilize_with_val_padding ->
  adds_only P (fun _ => True) (ttl.tilize_with_val_padding t out start v).
Proof.
  intros HP. unfold ttl.tilize_with_val_padding. logged HP.
  destruct (storage t); [apply adds_only_raise|copied].
Qed.

Lemma adds_untilize_with_unpadding t start stop :
  P call_untilize_with_unpadding ->
  adds_only P (fun _ => True) (ttl.untilize_with_unpadding t start stop).
Proof.
  intros HP. unfold ttl.untilize_with_unpadding. logged HP.
  destruct (storage t); [apply adds_only_raise|copied].
Qed.

Lemma adds_pad t out start v :
  P call_pad ->
  adds_only P (fun t' => on_host t' /\ layout t' = layout t)
    (ttl.pad t out start v).
Proof.
  intros HP. unfold ttl.pad. logged HP.
  destruct (storage t); [copied|apply adds_only_raise].
Qed.

Lemma adds_unpad_from_tile t out :
  P call_unpad_from_tile ->
  adds_only P (fun t' => on_host t' /\ layout t' = layout t)
    (ttl.unpad_from_tile t out).
Proof.
  intros HP. unfold ttl.unpad_from_tile. logged HP.
  destruct (storage t); [copied|apply adds_only_raise].
Qed.

End bindings.

(** ** Every function only adds calls *)

(** One step through a program: a leaf is closed with the rule of the
    binding it calls, [side] closes what remains. *)
Ltac leaf side :=
  first
    [ apply adds_only_lift
    | apply adds_only_log; side
    | apply adds_Tensor_from_torch; side
    | apply adds_to_torch; side
    | apply adds_cpu; side
    | apply adds_to_device; side
    | apply adds_to_layout; side
    | apply adds_reshape; side
    | apply adds_tensor_reshape; side
    | apply adds_tilize; side
    | apply adds_untilize; side
    | apply adds_tilize_with_val_padding; side
    | apply adds_untilize_with_unpadding; side
    | apply adds_pad; side
    | apply adds_unpad_from_tile; side
    | solve [side] ].

Ltac walk mid side :=
  lazymatch goal with
  | |- adds_only _ _ (@bind ?A _ _ _) =>
      first [ eapply adds_only_bind with (Q1 := (mid : A -> Prop))
            | eapply adds_only_bind with (Q1 := @anything A) ];
      [walk mid side | cbv beta; intros ? ?; walk mid side]
  | |- adds_only _ _ (if ?b then _ else _) =>
      destruct b eqn:?; try solve [side]; walk mid side
  | |- adds_only _ _ (match ?x with _ => _ end) =>
      destruct x eqn:?; try solve [side]; walk mid side
  | |- adds_only _ _ (ret _) => apply adds_only_ret; side
  | |- adds_only _ _ (raise _) => apply adds_only_raise
  | |- adds_only _ _ _ =>
      eapply adds_only_weaken; [leaf side | cbv beta; side]
  end.

Ltac trivial_side :=
  unfold any_call, anything in *; intros; auto.

Lemma adds_unpad_dim (P : call -> Prop) cur des a dim :
  P call_torch_slice -> adds_only P anything (unpad_dim cur des a dim).
Proof.
  intros HP. unfold unpad_dim.
  walk (@anything Tensor) ltac:(first [exact HP | trivial_side]).
Qed.

Lemma adds_unpad_loop (P : call -> Prop) cur des l (acc : M TorchTensor) :
  P call_torch_slice ->
  adds_only P anything acc ->
  adds_only P anything
    (foldl (fun (acc : M TorchTensor) (dim : nat) =>
              tensor <- acc ;; unpad_dim cur des tensor dim) acc l).
Proof.
  intros HP. revert acc. induction l as [|dim l IH]; intros acc Hacc; simpl.
  - exact Hacc.
  - apply IH. eapply adds_only_bind; [exact Hacc|].
    intros a _. now apply adds_unpad_dim.
Qed.

Section functions_only_add.

Variable rec : functions.
Hypothesis Hrec : functions_add_only any_call rec.

Lemma any_fn_reshape t arg : adds_only any_call anything (fn__reshape rec t arg).
Proof. apply Hrec. Qed.

Lemma any_fn_reshape_to_4D t :
  adds_only any_call anything (fn__reshape_to_4D rec t).
Proof. apply Hrec. Qed.

Lemma any_fn_to_layout t lay :
  adds_only any_call anything (fn_to_layout rec t lay).
Proof. apply Hrec. Qed.

Lemma any_fn_from_torch a dt lay dev mc :
  adds_only any_call anything (fn_from_torch rec a dt lay dev mc).
Proof. apply Hrec. Qed.

Lemma any_fn_to_torch t : adds_only any_call anything (fn_to_torch rec t).
Proof. apply Hrec. Qed.

Ltac any_side :=
  first [ exact I
        | apply any_fn_reshape | apply any_fn_reshape_to_4D | apply any_fn_to_layout
        | apply any_fn_from_torch | apply any_fn_to_torch
        | trivial_side ].

Lemma grows_reshape_moving t s :
  adds_only any_call anything (_reshape_moving rec t s).
Proof.
  unfold _reshape_moving, ttnn_reshape, torch_reshape, from_device, to_device.
  walk (@anything Tensor) any_side.
Qed.

Lemma grows_reshape_tiled t s :
  adds_only any_call anything (_reshape_tiled rec t s).
Proof.
  pose proof grows_reshape_moving.
  unfold _reshape_tiled, ttnn_reshape. walk (@anything Tensor) any_side.
Qed.

Lemma grows_reshape_body t arg :
  adds_only any_call anything (_reshape_body rec t arg).
Proof.
  pose proof grows_reshape_tiled.
  unfold _reshape_body, ttnn_reshape. walk (@anything Tensor) any_side.
Qed.

Lemma grows_reshape_to_4D_body t :
  adds_only any_call anything (_reshape_to_4D_body rec t).
Proof.
  unfold _reshape_to_4D_body. cbv zeta. walk (@anything Tensor) any_side.
Qed.

Lemma grows_unpad_with_pytorch t :
  adds_only any_call anything (unpad_with_pytorch rec t).
Proof.
  unfold unpad_with_pytorch. cbv zeta.
  eapply adds_only_bind with (Q1 := anything);
    [walk (@anything Tensor) any_side|]. intros t1 _.
  eapply adds_only_bind with (Q1 := anything);
    [walk (@anything Tensor) any_side|]. intros a _.
  eapply adds_only_bind with (Q1 := anything).
  - apply adds_unpad_loop; [exact I|]. now apply adds_only_ret.
  - intros a' _. apply any_fn_from_torch.
Qed.

Lemma grows_unpad_on_host lcn t lay :
  adds_only any_call anything (unpad_on_host rec lcn t lay).
Proof.
  unfold unpad_on_host, value_in_layout. walk (@anything Tensor) any_side.
Qed.

Lemma grows_unpad_host_copy lcn t lay :
  adds_only any_call anything (unpad_host_copy rec lcn t lay).
Proof.
  pose proof grows_unpad_on_host. pose proof grows_unpad_with_pytorch.
  unfold unpad_host_copy. cbv zeta. walk (@anything Tensor) any_side.
Qed.

Lemma grows_to_row_major n lcn dev intended t lay :
  adds_only any_call anything (to_row_major rec n lcn dev intended t lay).
Proof.
  pose proof grows_unpad_on_host. pose proof grows_unpad_host_copy.
  unfold to_row_major, value_in_layout, from_device. cbv zeta.
  walk (@anything Tensor) any_side.
Qed.

Lemma grows_to_tile dev t lay :
  adds_only any_call anything (to_tile rec dev t lay).
Proof.
  unfold to_tile. cbv zeta. walk (@anything Tensor) any_side.
Qed.

Lemma grows_to_layout_body t lay :
  adds_only any_call anything (to_layout_body rec t lay).
Proof.
  pose proof grows_to_row_major. pose proof grows_to_tile.
  unfold to_layout_body. cbv zeta. walk (@anything Tensor) any_side.
Qed.

Lemma grows_from_torch_body a dt lay dev mc :
  adds_only any_call anything (from_torch_body rec a dt lay dev mc).
Proof.
  unfold from_torch_body, to_device. walk (@anything Tensor) any_side.
Qed.

Lemma grows_to_torch_body t :
  adds_only any_call anything (to_torch_body rec t).
Proof.
  unfold to_torch_body, from_device. cbv zeta.
  walk (@anything Tensor) any_side.
Qed.

End functions_only_add.

Lemma functions_only_add (fuel : nat) :
  functions_add_only any_call (at_depth fuel).
Proof.
  induction fuel as [|fuel IH].
  - refine (conj _ (conj _ (conj _ (conj _ _)))); intros;
      apply adds_only_raise.
  - simpl. refine (conj _ (conj _ (conj _ (conj _ _)))); intros.
    + now apply grows_reshape_body.
    + now apply grows_reshape_to_4D_body.
    + now apply grows_to_layout_body.
    + now apply grows_from_torch_body.
    + now apply grows_to_torch_body.
Qed.


(** ** Host tensors stay on host *)

Lemma host_not_device (t : Tensor) :
  on_host t -> has_storage_type_of t DEVICE = false.
Proof.
  unfold on_host, has_storage_type_of, ttl.storage_type. intros ->.
  reflexivity.
Qed.

Ltac host_facts :=
  unfold anything, DEVICE_STORAGE_TYPE in *; intros;
  repeat match goal with
         | H : _ /\ _ |- _ => destruct H
         | H : on_host ?t, E : has_storage_type_of ?t DEVICE = true |- _ =>
             rewrite (host_not_device t H) in E; discriminate
         end;
  first [ exact I | reflexivity | assumption
        | unfold on_host in *; congruence ].

Ltac on_host_step :=
  unfold DEVICE_STORAGE_TYPE;
  repeat match goal with
         | H : on_host ?t |- context [has_storage_type_of ?t DEVICE] =>
             rewrite (host_not_device t H)
         end;
  rewrite ?andb_false_r;
  cbn [andb negb].

Ltac walk_host side :=
  on_host_step;
  lazymatch goal with
  | |- adds_only _ _ (@bind ?A _ _ _) =>
      first [ eapply adds_only_bind with (Q1 := (on_host : A -> Prop))
            | eapply adds_only_bind with (Q1 := @anything A) ];
      [walk_host side | cbv beta; intros ? ?; walk_host side]
  | |- adds_only _ _ (if ?b then _ else _) =>
      destruct b eqn:?; try solve [side]; walk_host side
  | |- adds_only _ _ (match ?x with _ => _ end) =>
      destruct x eqn:?; try solve [side]; walk_host side
  | |- adds_only _ _ (ret _) => apply adds_only_ret; side
  | |- adds_only _ _ (raise _) => apply adds_only_raise
  | |- adds_only _ _ _ =>
      eapply adds_only_weaken; [leaf side | cbv beta; side]
  end.

Section host_functions.

Variable rec : functions.
Hypothesis Hrec : host_functions rec.

Lemma host_fn_reshape t arg :
  on_host t -> adds_only host_only on_host (fn__reshape rec t arg).
Proof. apply Hrec. Qed.

Lemma host_fn_reshape_to_4D t :
  on_host t -> adds_only host_only on_host (fn__reshape_to_4D rec t).
Proof. apply Hrec. Qed.

Lemma host_fn_to_layout t lay :
  on_host t -> adds_only host_only on_host (fn_to_layout rec t lay).
Proof. apply Hrec. Qed.

Lemma host_fn_from_torch a dt lay :
  adds_only host_only on_host (fn_from_torch rec a dt lay None None).
Proof. apply Hrec. Qed.

Lemma host_fn_to_torch t :
  on_host t -> adds_only host_only anything (fn_to_torch rec t).
Proof. apply Hrec. Qed.

Ltac side :=
  first [ apply host_fn_reshape; host_facts
        | apply host_fn_reshape_to_4D; host_facts
        | apply host_fn_to_layout; host_facts
        | apply host_fn_from_torch
        | apply host_fn_to_torch; host_facts
        | host_facts
        | match goal with
          | H : forall _, _ |- adds_only _ _ _ => apply H; host_facts
          end ].

Lemma host_reshape_moving t s :
  on_host t -> adds_only host_only on_host (_reshape_moving rec t s).
Proof.
  intros Ht.
  unfold _reshape_moving, ttnn_reshape, torch_reshape, from_device, to_device.
  walk_host side.
Qed.

Lemma host_reshape_tiled t s :
  on_host t -> adds_only host_only on_host (_reshape_tiled rec t s).
Proof.
  intros Ht. pose proof host_reshape_moving.
  unfold _reshape_tiled, ttnn_reshape. walk_host side.
Qed.

Lemma host_reshape_body t arg :
  on_host t -> adds_only host_only on_host (_reshape_body rec t arg).
Proof.
  intros Ht. pose proof host_reshape_tiled.
  unfold _reshape_body, ttnn_reshape. walk_host side.
Qed.

Lemma host_reshape_to_4D_body t :
  on_host t -> adds_only host_only on_host (_reshape_to_4D_body rec t).
Proof.
  intros Ht. unfold _reshape_to_4D_body. cbv zeta. walk_host side.
Qed.

Lemma host_unpad_with_pytorch t :
  on_host t -> adds_only host_only on_host (unpad_with_pytorch rec t).
Proof.
  intros Ht. unfold unpad_with_pytorch. cbv zeta.
  eapply adds_only_bind with (Q1 := on_host); [walk_host side|].
  intros t1 Ht1.
  eapply adds_only_bind with (Q1 := anything); [walk_host side|].
  intros a _.
  eapply adds_only_bind with (Q1 := anything).
  - apply adds_unpad_loop; [reflexivity|]. now apply adds_only_ret.
  - intros a' _. apply host_fn_from_torch.
Qed.

Lemma host_unpad_on_host lcn t lay :
  on_host t -> adds_only host_only on_host (unpad_on_host rec lcn t lay).
Proof.
  intros Ht. unfold unpad_on_host, value_in_layout. walk_host side.
Qed.

Lemma host_unpad_host_copy lcn t lay :
  on_host t -> adds_only host_only on_host (unpad_host_copy rec lcn t lay).
Proof.
  intros Ht. pose proof host_unpad_on_host.
  pose proof host_unpad_with_pytorch.
  unfold unpad_host_copy. cbv zeta. walk_host side.
Qed.

Lemma host_to_row_major n lcn intended t lay :
  on_host t ->
  adds_only host_only on_host (to_row_major rec n lcn false intended t lay).
Proof.
  intros Ht. pose proof host_unpad_on_host.
  unfold to_row_major, value_in_layout. cbv zeta. walk_host side.
Qed.

Lemma host_to_tile t lay :
  on_host t -> adds_only host_only on_host (to_tile rec false t lay).
Proof.
  intros Ht. unfold to_tile. cbv zeta. walk_host side.
Qed.

Lemma host_to_layout_body t lay :
  on_host t -> adds_only host_only on_host (to_layout_body rec t lay).
Proof.
  intros Ht. pose proof host_to_row_major. pose proof host_to_tile.
  unfold to_layout_body. cbv zeta. walk_host side.
Qed.

Lemma host_from_torch_body a dt lay :
  adds_only host_only on_host (from_torch_body rec a dt lay None None).
Proof. unfold from_torch_body. walk_host side. Qed.

Lemma host_to_torch_body t :
  on_host t -> adds_only host_only anything (to_torch_body rec t).
Proof.
  intros Ht. unfold to_torch_body, from_device. cbv zeta. walk_host side.
Qed.

End host_functions.

Lemma host_functions_at_depth (fuel : nat) : host_functions (at_depth fuel).
Proof.
  induction fuel as [|fuel IH].
  - refine (conj _ (conj _ (conj _ (conj _ _)))); intros;
      apply adds_only_raise.
  - simpl. refine (conj _ (conj _ (conj _ (conj _ _)))); intros.
    + now apply host_reshape_body.
    + now apply host_reshape_to_4D_body.
    + now apply host_to_layout_body.
    + now apply host_from_torch_body.
    + now apply host_to_torch_body.
Qed.


(** ** Unpadding to row-major on the device *)

Lemma bind_ok_inv {A B} (m : M A) (k : A -> M B) w b w' :
  bind m k w = (Ok b, w') ->
  exists a w1, m w = (Ok a, w1) /\ k a w1 = (Ok b, w').
Proof.
  unfold bind. destruct (m w) as [[a|e] w1]; [|discriminate].
  intros H. now exists a, w1.
Qed.

Lemma host_call_not_kernel (c : call) :
  host_call c = true -> device_kernel c = false.
Proof. now destruct c. Qed.

Lemma to_layout_unpad_on_device (fuel : nat) (t : Tensor) (w : World) d mc :
  storage t = DeviceStorage d mc ->
  requires_padding_change ROW_MAJOR (shape t) = true ->
  to_layout (S fuel) t ROW_MAJOR w
  = to_row_major (at_depth fuel) true
      (negb (bool_decide (layout t = ROW_MAJOR))) true (dims (shape t)) t
      ROW_MAJOR w.
Proof.
  intros Hst Hpad. unfold to_layout. simpl. unfold to_layout_body.
  rewrite Hpad. unfold has_storage_type_of, ttl.storage_type. rewrite Hst.
  cbn [negb andb]. rewrite andb_false_r. reflexivity.
Qed.

(** C3, as the code has it: when [to_layout] targets row-major on a
    device tensor that requires a padding change and returns, the native
    [untilize_with_unpadding] is called exactly when the tensor is not
    yet row-major and its logical width is even; otherwise the first call
    is the transfer to host and no kernel of the device is called after
    it: the unpadding is done on host. *)
Theorem to_layout_unpad_on_device_gate :
  forall (fuel : nat) (t : Tensor) (w : World) (d : Device)
         (mc : MemoryConfig) (rest : list Z) (width : Z)
         (result : Tensor) (w' : World),
    storage t = DeviceStorage d mc ->
    requires_padding_change ROW_MAJOR (shape t) = true ->
    unpack_last (dims (shape t)) = Ok (rest, width) ->
    to_layout (S fuel) t ROW_MAJOR w = (Ok result, w') ->
    exists new : list call,
      calls w' = new ++ calls w /\
      (In call_untilize_with_unpadding new <->
       layout t <> ROW_MAJOR /\ (width mod 2 = 0)%Z) /\
      (~ (layout t <> ROW_MAJOR /\ (width mod 2 = 0)%Z) ->
       exists new', new = new' ++ [call_cpu] /\
                    Forall (fun c => device_kernel c = false) new').
Proof.
  intros fuel t w d mc rest width result w' Hst Hpad Hwidth Hrun.
  rewrite (to_layout_unpad_on_device fuel t w d mc Hst Hpad) in Hrun.
  unfold to_row_major in Hrun. cbv zeta in Hrun.
  apply bind_ok_inv in Hrun as (out & w2 & Hout & Hfinal).
  rewrite Hwidth, bind_lift_ok in Hout. cbn [snd] in Hout.
  destruct (functions_only_add fuel) as (Hg_reshape & Hg_4D & _).
  destruct (host_functions_at_depth fuel) as (Hh_reshape & _).
  destruct (negb (bool_decide (layout t = ROW_MAJOR)) && (width mod 2 =? 0)%Z)
    eqn:Hgate.
  - (* the native primitive *)
    apply andb_true_iff in Hgate as [Hlcn Heven].
    apply negb_true_iff, bool_decide_eq_false in Hlcn.
    apply Z.eqb_eq in Heven.
    apply bind_ok_inv in Hout as (t4 & w1 & H4D & Hnative).
    destruct (Hg_4D t w _ _ H4D) as [(new1 & Hc1 & _) _].
    destruct (Hg_reshape out (TupleArg (dims (shape t))) w2 _ _ Hfinal)
      as [(new3 & Hc3 & _) _].
    assert (Hc2 : calls w2 = call_untilize_with_unpadding :: calls w1).
    { unfold ttl.untilize_with_unpadding, bind, log in Hnative.
      cbn in Hnative.
      destruct (storage t4); [discriminate|].
      unfold read in Hnative. cbn in Hnative.
      destruct (heap w1 !! buffer t4); [|discriminate].
      cbn in Hnative. now injection Hnative as <- <-. }
    exists (new3 ++ call_untilize_with_unpadding :: new1). split.
    { rewrite Hc3, Hc2, Hc1. now rewrite <- app_assoc. }
    split.
    + split; [auto|]. intros _. apply in_or_app. right. now left.
    + intros Hno. exfalso. apply Hno. auto.
  - (* through the host *)
    assert (Hno : ~ (layout t <> ROW_MAJOR /\ (width mod 2 = 0)%Z)).
    { intros [Hlay Heven]. apply andb_false_iff in Hgate as [Hg|Hg].
      - apply negb_false_iff, bool_decide_eq_true in Hg. contradiction.
      - apply Z.eqb_neq in Hg. contradiction. }
    apply bind_ok_inv in Hout as (copy & w1 & Hcpu & Hhost).
    assert (Hcopy : on_host copy /\ calls w1 = call_cpu :: calls w).
    { unfold from_device, ttl.cpu, bind, log in Hcpu. cbn in Hcpu.
      rewrite Hst in Hcpu. unfold read in Hcpu. cbn in Hcpu.
      destruct (heap w !! buffer t); [|discriminate].
      cbn in Hcpu. injection Hcpu as <- <-. split; reflexivity. }
    destruct Hcopy as [Hcopy Hc1].
    destruct (host_unpad_host_copy (at_depth fuel) (host_functions_at_depth fuel)
                _ copy ROW_MAJOR Hcopy w1 _ _ Hhost)
      as [(new2 & Hc2 & HP2) Hout_host].
    destruct (Hh_reshape out (TupleArg (dims (shape t)))
                (Hout_host out eq_refl) w2 _ _ Hfinal)
      as [(new3 & Hc3 & HP3) _].
    exists ((new3 ++ new2) ++ [call_cpu]).
    assert (Hkernels : Forall (fun c => device_kernel c = false) (new3 ++ new2)).
    { apply Forall_app. split.
      - eapply Forall_impl; [exact HP3|]. apply host_call_not_kernel.
      - eapply Forall_impl; [exact HP2|]. apply host_call_not_kernel. }
    split.
    { rewrite Hc3, Hc2, Hc1. rewrite <- !app_assoc. reflexivity. }
    split.
    + split; [|intros H; contradiction].
      intros Hin. exfalso. apply in_app_or in Hin as [Hin|Hin].
      * rewrite Forall_forall in Hkernels.
        apply list_elem_of_In in Hin.
        specialize (Hkernels _ Hin). discriminate.
      * destruct Hin as [Hin|[]]. discriminate.
    + intros _. now exists (new3 ++ new2).
Qed.

Lemma to_layout_unpad_on_device_gate_witness :
  let tiled_even :=
    mkTensor BFLOAT16 TILE (DeviceStorage 0 L1_MEMORY_CONFIG)
      (mkShape [3; 4]%Z [32; 32]%Z) 0 in
  let tiled_odd :=
    mkTensor BFLOAT16 TILE (DeviceStorage 0 L1_MEMORY_CONFIG)
      (mkShape [3; 5]%Z [32; 32]%Z) 0 in
  let w := mkWorld {[ 0%nat := replicate 1024 0%Z ]} 1 [] in
  (exists new : list call,
     calls (snd (to_layout 5 tiled_even ROW_MAJOR w)) = new ++ [] /\
     (In call_untilize_with_unpadding new <->
      TILE <> ROW_MAJOR /\ (4 mod 2 = 0)%Z) /\
     (~ (TILE <> ROW_MAJOR /\ (4 mod 2 = 0)%Z) ->
      exists new', new = new' ++ [call_cpu] /\
                   Forall (fun c => device_kernel c = false) new')) /\
  (exists new : list call,
     calls (snd (to_layout 5 tiled_odd ROW_MAJOR w)) = new ++ [] /\
     (In call_untilize_with_unpadding new <->
      TILE <> ROW_MAJOR /\ (5 mod 2 = 0)%Z) /\
     (~ (TILE <> ROW_MAJOR /\ (5 mod 2 = 0)%Z) ->
      exists new', new = new' ++ [call_cpu] /\
                   Forall (fun c => device_kernel c = false) new')).
Proof.
  intros tiled_even tiled_odd w. split.
  - destruct (to_layout 5 tiled_even ROW_MAJOR w) as [r w'] eqn:Hrun.
    assert (Hr : r = Ok (mkTensor BFLOAT16 ROW_MAJOR
                           (DeviceStorage 0 L1_MEMORY_CONFIG)
                           (mkShape [3; 4]%Z [3; 4]%Z) 1)).
    { change r with (fst (r, w')). rewrite <- Hrun. vm_compute. reflexivity. }
    subst r.
    cbn [snd].
    eapply (to_layout_unpad_on_device_gate 4 tiled_even w 0%nat
              L1_MEMORY_CONFIG [3]%Z 4%Z);
      [reflexivity|reflexivity|reflexivity|exact Hrun].
  - destruct (to_layout 5 tiled_odd ROW_MAJOR w) as [r w'] eqn:Hrun.
    assert (Hr : r = Ok (mkTensor BFLOAT16 ROW_MAJOR HostStorage
                           (mkShape [3; 5]%Z [3; 5]%Z) 3)).
    { change r with (fst (r, w')). rewrite <- Hrun. vm_compute. reflexivity. }
    subst r.
    cbn [snd].
    eapply (to_layout_unpad_on_device_gate 4 tiled_odd w 0%nat
              L1_MEMORY_CONFIG [3]%Z 5%Z);
      [reflexivity|reflexivity|reflexivity|exact Hrun].
Defined.

(** C3 as stated fails twice.  A row-major device tensor with padding
    (logical (3, 4) in (32, 32)) requires a padding change and has an even
    width, and [untilize_with_unpadding] is not called: the tensor is
    unpadded on host.  A tiled device tensor of odd width (logical (3, 5)
    in (32, 32)) is unpadded on host and the result is returned on host:
    [to_device] is not called. *)
Lemma to_layout_unpad_on_device_as_stated_fails :
  let row_even :=
    mkTensor BFLOAT16 ROW_MAJOR (DeviceStorage 0 L1_MEMORY_CONFIG)
      (mkShape [3; 4]%Z [32; 32]%Z) 0 in
  let tiled_odd :=
    mkTensor BFLOAT16 TILE (DeviceStorage 0 L1_MEMORY_CONFIG)
      (mkShape [3; 5]%Z [32; 32]%Z) 0 in
  let w := mkWorld {[ 0%nat := replicate 1024 0%Z ]} 1 [] in
  (requires_padding_change ROW_MAJOR (shape row_even) = true /\
   (4 mod 2 = 0)%Z /\
   fst (to_layout 5 row_even ROW_MAJOR w)
   = Ok (mkTensor BFLOAT16 ROW_MAJOR HostStorage (mkShape [3; 4]%Z [3; 4]%Z) 3) /\
   ~ In call_untilize_with_unpadding
       (calls (snd (to_layout 5 row_even ROW_MAJOR w)))) /\
  (requires_padding_change ROW_MAJOR (shape tiled_odd) = true /\
   (5 mod 2 <> 0)%Z /\
   fst (to_layout 5 tiled_odd ROW_MAJOR w)
   = Ok (mkTensor BFLOAT16 ROW_MAJOR HostStorage (mkShape [3; 5]%Z [3; 5]%Z) 3) /\
   ~ In call_to_device (calls (snd (to_layout 5 tiled_odd ROW_MAJOR w)))).
Proof.
  intros row_even tiled_odd w.
  repeat split; try (vm_compute; reflexivity); try discriminate.
  - vm_compute. intuition discriminate.
  - vm_compute. intuition discriminate.
Qed.

(** ** Padding to tiles *)

Lemma tile_padding_smallest (n : Z) :
  smallest_tile_multiple n
    (n + (TILE_SIZE - n mod TILE_SIZE) mod TILE_SIZE)%Z.
Proof.
  unfold smallest_tile_multiple, TILE_SIZE. repeat split.
  - Z.div_mod_to_equations. lia.
  - Z.div_mod_to_equations. lia.
  - intros y Hy Hle. Z.div_mod_to_equations. lia.
Qed.

Lemma from_end_app_1 (b : list Z) (y x : Z) :
  from_end (b ++ [y; x]) 1 = Some x.
Proof.
  unfold from_end. rewrite length_app. simpl.
  rewrite decide_True by lia.
  rewrite lookup_app_r by lia.
  replace (length b + 2 - 1 - length b)%nat with 1%nat by lia. reflexivity.
Qed.

Lemma from_end_app_2 (b : list Z) (y x : Z) :
  from_end (b ++ [y; x]) 2 = Some y.
Proof.
  unfold from_end. rewrite length_app. simpl.
  rewrite decide_True by lia.
  rewrite lookup_app_r by lia.
  replace (length b + 2 - 2 - length b)%nat with 0%nat by lia. reflexivity.
Qed.

Lemma but_last_two_app (b : list Z) (y x : Z) :
  but_last_two (b ++ [y; x]) = b.
Proof.
  unfold but_last_two. rewrite length_app. simpl.
  replace (length b + 2 - 2)%nat with (length b) by lia.
  now rewrite take_app_length.
Qed.

Lemma last_two_app (b : list Z) (y x : Z) :
  last_two (b ++ [y; x]) = [y; x].
Proof.
  unfold last_two. rewrite length_app. simpl.
  replace (length b + 2 - 2)%nat with (length b) by lia.
  now rewrite drop_app_length.
Qed.

Lemma unpack_last_two_app (b : list Z) (y x : Z) :
  unpack_last_two (b ++ [y; x]) = Ok (b, y, x).
Proof.
  unfold unpack_last_two.
  now rewrite from_end_app_2, from_end_app_1, but_last_two_app.
Qed.

Lemma getitem_last_app (b : list Z) (y x : Z) :
  getitem_last (b ++ [y; x]) = Ok x.
Proof. unfold getitem_last. now rewrite from_end_app_1. Qed.

Lemma requires_padding_change_tile (b : list Z) (h w : Z) :
  requires_padding_change TILE (mkShape (b ++ [h; w]) (b ++ [h; w]))
  = negb ((w mod TILE_SIZE =? 0)%Z) || negb ((h mod TILE_SIZE =? 0)%Z).
Proof.
  unfold requires_padding_change. simpl dims. simpl padded.
  rewrite last_two_app.
  rewrite (bool_decide_eq_false_2 (TILE = ROW_MAJOR_LAYOUT)) by discriminate.
  rewrite (bool_decide_eq_true_2 (TILE = TILE_LAYOUT)) by reflexivity.
  rewrite (bool_decide_eq_true_2 ([h; w] = [h; w])) by reflexivity.
  change [h; w] with ([] ++ [h; w]).
  rewrite from_end_app_1, from_end_app_2. simpl.
  now destruct (_ =? _)%Z, (_ =? _)%Z.
Qed.

Lemma with_shape_same (t : Tensor) : ttl.with_shape t (shape t) = t.
Proof. now destruct t. Qed.

(** [_reshape] on a tiled tensor, to a shape whose padded height and
    width are multiples of 32: only the shape changes. *)
Lemma reshape_tiled_aligned (fuel : nat) (t : Tensor) (s : Shape) (w : World)
    (b : list Z) (ph pw : Z) :
  layout t = TILE ->
  padded s = b ++ [ph; pw] ->
  (ph mod TILE_SIZE = 0)%Z ->
  (pw mod TILE_SIZE = 0)%Z ->
  exists w',
    _reshape (S fuel) t (ShapeArg s) w = (Ok (ttl.with_shape t s), w') /\
    heap w' = heap w /\ next w' = next w.
Proof.
  intros Hlay Hpad Hph Hpw. unfold _reshape. simpl. unfold _reshape_body.
  simpl resolve_shape. rewrite bind_lift_ok.
  destruct (bool_decide (shape t = s)
            && bool_decide (dims (shape t) = dims s)) eqn:Hsame.
  - apply andb_true_iff in Hsame as [Hs _].
    apply bool_decide_eq_true in Hs. subst s.
    exists w. now rewrite with_shape_same.
  - unfold is_contiguous, _reshape_tiled. rewrite Hlay.
    rewrite Hpad, unpack_last_two_app, bind_lift_ok.
    apply Z.eqb_eq in Hph, Hpw. rewrite Hph, Hpw. simpl.
    eexists. split; [reflexivity|]. split; reflexivity.
Qed.

(** [_reshape_to_4D] on a row-major tensor without padding, of rank 2 to
    4: ones are put in front of the shape. *)
Lemma reshape_to_4D_contiguous (fuel : nat) (t : Tensor) (w : World)
    (b : list Z) (h x : Z) :
  layout t = ROW_MAJOR ->
  padded (shape t) = dims (shape t) ->
  dims (shape t) = b ++ [h; x] ->
  (length b <= 2)%nat ->
  let ones := replicate (2 - length b) 1%Z in
  exists w',
    _reshape_to_4D (S (S fuel)) t w
    = (Ok (ttl.with_shape t (mkShape (ones ++ b ++ [h; x])
                               (ones ++ b ++ [h; x]))), w') /\
    heap w' = heap w /\ next w' = next w.
Proof.
  intros Hlay Hpad Hdims Hb ones.
  assert (Hrank : length (dims (shape t)) = (length b + 2)%nat).
  { rewrite Hdims, length_app. reflexivity. }
  unfold _reshape_to_4D.
  change (fn__reshape_to_4D (at_depth (S (S fuel))))
    with (_reshape_to_4D_body (at_depth (S fuel))).
  unfold _reshape_to_4D_body. cbv zeta.
  destruct (bool_decide (length (dims (shape t)) = 4%nat)) eqn:H4.
  - apply bool_decide_eq_true in H4.
    exists w. split; [|split; reflexivity].
    unfold ones. replace (2 - length b)%nat with 0%nat by lia. simpl.
    rewrite <- Hdims. rewrite <- Hpad at 2.
    replace (mkShape (dims (shape t)) (padded (shape t))) with (shape t)
      by now destruct (shape t).
    now rewrite with_shape_same.
  - apply bool_decide_eq_false in H4.
    rewrite bool_decide_eq_false_2 by lia.
    replace (4 - length (dims (shape t)))%nat with (2 - length b)%nat by lia.
    fold ones. rewrite Hpad, Hdims.
    change (fn__reshape (at_depth (S fuel)))
      with (_reshape_body (at_depth fuel)).
    unfold _reshape_body. simpl resolve_shape. rewrite bind_lift_ok.
    rewrite (bool_decide_eq_false_2 (shape t = _)).
    2:{ intros Heq. apply (f_equal dims) in Heq. simpl in Heq.
        apply (f_equal length) in Heq.
        rewrite Hrank, !length_app in Heq. unfold ones in Heq.
        rewrite length_replicate in Heq. simpl in Heq. lia. }
    cbn [andb]. unfold is_contiguous. rewrite Hlay.
    rewrite bool_decide_eq_true_2 by exact Hpad.
    destruct (has_storage_type_of t DEVICE).
    + rewrite Hdims. simpl dims.
      rewrite getitem_last_app, bind_lift_ok.
      rewrite (app_assoc ones b), getitem_last_app, bind_lift_ok.
      rewrite bool_decide_eq_true_2 by reflexivity.
      rewrite <- app_assoc.
      eexists. split; [reflexivity|]. split; reflexivity.
    + eexists. split; [reflexivity|]. split; reflexivity.
Qed.

Lemma tile_padding_aligned (n : Z) :
  (n mod TILE_SIZE =? 0)%Z = true ->
  (n + (TILE_SIZE - n mod TILE_SIZE) mod TILE_SIZE)%Z = n.
Proof.
  intros H. apply Z.eqb_eq in H. rewrite H. unfold TILE_SIZE.
  change ((32 - 0) mod 32)%Z with 0%Z. lia.
Qed.

Lemma tile_padding_mod (n : Z) :
  ((n + (TILE_SIZE - n mod TILE_SIZE) mod TILE_SIZE) mod TILE_SIZE = 0)%Z.
Proof. apply tile_padding_smallest. Qed.

(** [to_tile] on a row-major tensor without padding, of rank 2 to 4, whose
    buffer is alive. *)
Lemma to_tile_run (fuel : nat) (dt : DataType) (st : Storage)
    (buf : nat) (w : World) (b : list Z) (h x : Z) (data : list Z) :
  (length b <= 2)%nat ->
  heap w !! buf = Some data ->
  let t := mkTensor dt ROW_MAJOR st (mkShape (b ++ [h; x]) (b ++ [h; x])) buf in
  let ph := (h + (TILE_SIZE - h mod TILE_SIZE) mod TILE_SIZE)%Z in
  let pw := (x + (TILE_SIZE - x mod TILE_SIZE) mod TILE_SIZE)%Z in
  exists result w',
    to_tile (at_depth (S (S fuel))) (has_storage_type_of t DEVICE) t TILE w
    = (Ok result, w') /\
    layout result = TILE /\
    shape result = mkShape (b ++ [h; x]) (b ++ [ph; pw]).
Proof.
  intros Hb Hbuf t ph pw. unfold to_tile.
  change (dims (shape t)) with (b ++ [h; x]).
  rewrite (proj2 (Nat.ltb_lt 1 (length (b ++ [h; x]))))
    by (rewrite length_app; simpl; lia).
  rewrite unpack_last_two_app, bind_lift_ok. cbv zeta. fold ph pw.
  destruct (reshape_to_4D_contiguous fuel t w b h x eq_refl eq_refl eq_refl Hb)
    as (w1 & H4D & Hheap & Hnext).
  change (fn__reshape_to_4D (at_depth (S (S fuel))))
    with (_reshape_to_4D (S (S fuel))).
  erewrite bind_ok by exact H4D.
  set (ones := replicate (2 - length b) 1%Z).
  simpl dims. rewrite (app_assoc ones b), unpack_last_two_app, bind_lift_ok.
  cbn [fst]. simpl layout.
  rewrite (bool_decide_eq_true_2 (ROW_MAJOR = ROW_MAJOR_LAYOUT)) by reflexivity.
  cbn [andb].
  assert (Hbuf1 : heap w1 !! buf = Some data) by now rewrite Hheap.
  change (fn__reshape (at_depth (S (S fuel)))) with (_reshape (S (S fuel))).
  unfold has_storage_type_of, ttl.storage_type. destruct st as [|dev mc].
  - (* on host: pad, then tag *)
    simpl.
    unfold ttl.pad, ttl.to_layout. simpl.
    unfold bind at 1. unfold bind at 1. unfold bind at 1. unfold log at 1.
    unfold bind at 1. unfold read at 1. simpl. rewrite Hbuf1.
    unfold ttl.fresh, bind at 1, alloc at 1, ret at 1.
    unfold bind at 1, log at 1. unfold ret at 1. simpl.
    match goal with
    | |- context [_reshape (S (S fuel)) ?t5 (ShapeArg ?s) ?w5] =>
        destruct (reshape_tiled_aligned (S fuel) t5 s w5 b ph pw eq_refl eq_refl
                    (tile_padding_mod h) (tile_padding_mod x))
          as (w' & Hrun & _)
    end.
    rewrite Hrun. eexists. eexists. split; [reflexivity|].
    split; reflexivity.
  - (* on device: the kernel *)
    simpl.
    unfold ttl.tilize_with_val_padding. simpl.
    unfold bind at 1. unfold bind at 1. unfold log at 1.
    unfold bind at 1. unfold read at 1. simpl. rewrite Hbuf1.
    unfold ttl.fresh, bind at 1, alloc at 1, ret at 1. simpl.
    match goal with
    | |- context [_reshape (S (S fuel)) ?t5 (ShapeArg ?s) ?w5] =>
        destruct (reshape_tiled_aligned (S fuel) t5 s w5 b ph pw eq_refl eq_refl
                    (tile_padding_mod h) (tile_padding_mod x))
          as (w' & Hrun & _)
    end.
    rewrite Hrun. eexists. eexists. split; [reflexivity|].
    split; reflexivity.
Qed.

(** The run of [to_layout] to tiles on a row-major tensor without padding,
    of rank 2 to 4, whose buffer is alive. *)
Lemma to_layout_tile_run (fuel : nat) (dt : DataType) (st : Storage)
    (buf : nat) (w : World) (b : list Z) (h x : Z) (data : list Z) :
  (length b <= 2)%nat ->
  heap w !! buf = Some data ->
  let t := mkTensor dt ROW_MAJOR st (mkShape (b ++ [h; x]) (b ++ [h; x])) buf in
  let ph := (h + (TILE_SIZE - h mod TILE_SIZE) mod TILE_SIZE)%Z in
  let pw := (x + (TILE_SIZE - x mod TILE_SIZE) mod TILE_SIZE)%Z in
  exists result w',
    to_layout (S (S (S fuel))) t TILE w = (Ok result, w') /\
    layout result = TILE /\
    shape result = mkShape (b ++ [h; x]) (b ++ [ph; pw]).
Proof.
  intros Hb Hbuf t ph pw.
  unfold to_layout.
  change (fn_to_layout (at_depth (S (S (S fuel)))))
    with (to_layout_body (at_depth (S (S fuel)))).
  unfold to_layout_body. cbv zeta.
  change (shape t) with (mkShape (b ++ [h; x]) (b ++ [h; x])).
  rewrite requires_padding_change_tile.
  change (layout t) with ROW_MAJOR.
  rewrite (bool_decide_eq_false_2 (ROW_MAJOR = TILE)) by discriminate.
  cbn [negb andb].
  destruct (x mod TILE_SIZE =? 0)%Z eqn:Hx, (h mod TILE_SIZE =? 0)%Z eqn:Hh;
    cbn [negb andb orb].
  - (* aligned: the tag changes *)
    unfold ph, pw. rewrite (tile_padding_aligned h Hh), (tile_padding_aligned x Hx).
    unfold has_storage_type_of, ttl.storage_type. destruct st as [|dev mc].
    + eexists. eexists. split; [reflexivity|]. split; reflexivity.
    + simpl. unfold ttl.tilize, bind, log, read, ttl.fresh, bind, alloc, ret.
      simpl. rewrite Hbuf.
      eexists. eexists. split; [reflexivity|]. split; reflexivity.
  - eapply to_tile_run; eassumption.
  - eapply to_tile_run; eassumption.
  - eapply to_tile_run; eassumption.
Qed.

(** C4: [to_layout] to tiles of a row-major tensor (without padding, as
    the data model has it) of logical shape (..., h, w) and rank 2 to 4
    returns a tiled tensor with the same logical shape, whose padded
    height and width are [dim + (32 - dim mod 32) mod 32], the smallest
    multiples of 32 that are at least [h] and [w]. *)
Theorem to_layout_tile_padded_shape :
  forall (fuel : nat) (t : Tensor) (w : World) (b : list Z) (h x : Z)
         (data : list Z),
    layout t = ROW_MAJOR ->
    padding_trivial (shape t) ->
    dims (shape t) = b ++ [h; x] ->
    (length b <= 2)%nat ->
    heap w !! buffer t = Some data ->
    let ph := (h + (TILE_SIZE - h mod TILE_SIZE) mod TILE_SIZE)%Z in
    let pw := (x + (TILE_SIZE - x mod TILE_SIZE) mod TILE_SIZE)%Z in
    exists (result : Tensor) (w' : World),
      to_layout (S (S (S fuel))) t TILE w = (Ok result, w') /\
      layout result = TILE /\
      dims (shape result) = dims (shape t) /\
      padded (shape result) = b ++ [ph; pw] /\
      smallest_tile_multiple h ph /\
      smallest_tile_multiple x pw.
Proof.
  intros fuel t w b h x data Hlay Htriv Hdims Hb Hbuf ph pw.
  destruct t as [dt l st [ds ps] buf]. unfold padding_trivial in Htriv.
  simpl in Hlay, Htriv, Hdims, Hbuf. subst l ps ds.
  destruct (to_layout_tile_run fuel dt st buf w b h x data Hb Hbuf)
    as (result & w' & Hrun & Hres_lay & Hres_shape).
  exists result, w'. split; [exact Hrun|]. split; [exact Hres_lay|].
  rewrite Hres_shape. simpl. split; [reflexivity|]. split; [reflexivity|].
  split; apply tile_padding_smallest.
Qed.

Lemma to_layout_tile_padded_shape_witness :
  let t :=
    mkTensor BFLOAT16 ROW_MAJOR (DeviceStorage 0 DRAM_MEMORY_CONFIG)
      (mkShape [10; 64; 20]%Z [10; 64; 20]%Z) 0 in
  let w := mkWorld {[ 0%nat := replicate (Z.to_nat 12800) 0%Z ]} 1 [] in
  exists (result : Tensor) (w' : World),
    to_layout 3 t TILE w = (Ok result, w') /\
    layout result = TILE /\
    dims (shape result) = [10; 64; 20]%Z /\
    padded (shape result) = [10; 64; 32]%Z /\
    smallest_tile_multiple 64 64 /\
    smallest_tile_multiple 20 32.
Proof.
  intros t w.
  apply (to_layout_tile_padded_shape 0 t w [10]%Z 64%Z 20%Z
           (replicate (Z.to_nat 12800) 0%Z)); try reflexivity.
  simpl. lia.
Defined.

(** ** More of the module: the padding decision and the wildcard *)


Lemma prod_zero (l : list Z) : In 0%Z l -> prod l = 0%Z.
Proof.
  induction l as [|y l IH]; simpl; [tauto|].
  intros [->|Hin]; unfold prod in *; simpl; [lia|].
  rewrite (IH Hin). lia.
Qed.

Lemma index_none (l : list Z) (x : Z) : count l x = 0%nat -> index l x = None.
Proof.
  unfold count. induction l as [|y l IH]; [reflexivity|].
  rewrite filter_cons. simpl. destruct (decide (y = x)) as [->|Hne].
  - simpl. discriminate.
  - intros H. now rewrite (IH H).
Qed.





(** ** What [_reshape] and [_reshape_to_4D] return *)

Lemma adds_reshape_shape (P : call -> Prop) (t : Tensor) (s : Shape) :
  P call_reshape -> adds_only P (fun t' => shape t' = s) (ttl.reshape t s).
Proof.
  intros HP. unfold ttl.reshape. logged HP. now apply adds_only_ret.
Qed.

(** As [walk], the reshape of [tt_lib] being closed with its shape. *)
Ltac walk_shape side :=
  lazymatch goal with
  | |- adds_only _ _ (ttl.reshape _ _) =>
      eapply adds_only_weaken; [apply adds_reshape_shape; exact I|];
      cbv beta; side
  | |- adds_only _ _ (@bind ?A _ _ _) =>
      eapply adds_only_bind with (Q1 := @anything A);
      [walk (@anything Tensor) ltac:(trivial_side)
      | cbv beta; intros ? ?; walk_shape side]
  | |- adds_only _ _ (if ?b then _ else _) =>
      destruct b eqn:?; walk_shape side
  | |- adds_only _ _ (match ?x with _ => _ end) =>
      destruct x eqn:?; walk_shape side
  | |- adds_only _ _ (ret _) => apply adds_only_ret; side
  | |- adds_only _ _ (raise _) => apply adds_only_raise
  end.

Lemma reshape_body_shape (rec : functions) (t : Tensor) (arg : shape_arg) :
  functions_add_only any_call rec ->
  adds_only any_call (fun r => resolve_shape t arg = Ok (shape r))
    (_reshape_body rec t arg).
Proof.
  intros Hrec. unfold _reshape_body.
  destruct (resolve_shape t arg) as [s|e] eqn:Hres.
  - intros w r w' Hrun. rewrite bind_lift_ok in Hrun. revert w r w' Hrun.
    change (adds_only any_call (fun r => Ok s = Ok (shape r))
              (if bool_decide (shape t = s)
                  && bool_decide (dims (shape t) = dims s)
               then ret t
               else if is_contiguous t
                    then if has_storage_type_of t DEVICE
                         then old_width <- lift (getitem_last (dims (shape t))) ;;
                              new_width <- lift (getitem_last (dims s)) ;;
                              if bool_decide (old_width = new_width)
                              then ttnn_reshape t s
                              else _reshape_tiled rec t s
                         else ttnn_reshape t s
                    else _reshape_tiled rec t s)).
    destruct Hrec as (Hr & H4 & Hl & Hf & Ht).
    unfold _reshape_tiled, _reshape_moving, ttnn_reshape, torch_reshape,
      from_device, to_device.
    walk_shape ltac:(first
      [ apply Hf | apply Ht | exact I
      | intros; subst; reflexivity
      | match goal with
        | H : _ && _ = true |- _ =>
            apply andb_true_iff in H as [H _];
            apply bool_decide_eq_true in H; now rewrite H
        end
      | trivial_side ]).
  - intros w r w' Hrun. unfold bind, lift in Hrun.
    injection Hrun as <- <-. split.
    + exists []. split; [reflexivity|constructor].
    + discriminate.
Qed.

Lemma reshape_run_shape (fuel : nat) (t : Tensor) (arg : shape_arg)
    (w : World) (r : Tensor) (w' : World) :
  _reshape fuel t arg w = (Ok r, w') -> resolve_shape t arg = Ok (shape r).
Proof.
  destruct fuel as [|fuel]; intros Hrun; [discriminate|].
  unfold _reshape in Hrun. simpl in Hrun.
  exact (proj2 (reshape_body_shape (at_depth fuel) t arg
                  (functions_only_add fuel) w _ _ Hrun) r eq_refl).
Qed.



Lemma prod_ones (k : nat) (l : list Z) : prod (replicate k 1%Z ++ l) = prod l.
Proof.
  induction k as [|k IH]; [reflexivity|].
  simpl. unfold prod in *. simpl. rewrite IH. lia.
Qed.



(** ** Host tensors *)



(** ** The layout of what the functions return *)

Section layouts_of_bindings.

Variable P : call -> Prop.

Lemma layout_tensor_reshape t w z y x :
  P call_device_reshape ->
  adds_only P (has_layout (layout t)) (ttl.tensor_reshape t w z y x).
Proof.
  intros HP. unfold ttl.tensor_reshape, has_layout. logged HP. copied.
Qed.

Lemma layout_to_device t dev mc :
  P call_to_device ->
  adds_only P (has_layout (layout t)) (ttl.to_device t dev mc).
Proof.
  intros HP. unfold ttl.to_device, has_layout. logged HP.
  destruct (storage t); [copied|apply adds_only_raise].
Qed.

Lemma layout_tilize t mc :
  P call_tilize -> adds_only P (has_layout TILE) (ttl.tilize t mc).
Proof.
  intros HP. unfold ttl.tilize, has_layout. logged HP.
  destruct (storage t); [apply adds_only_raise|copied].
Qed.

Lemma layout_untilize t :
  P call_untilize -> adds_only P (has_layout ROW_MAJOR) (ttl.untilize t).
Proof.
  intros HP. unfold ttl.untilize, has_layout. logged HP.
  destruct (storage t); [apply adds_only_raise|copied].
Qed.

Lemma layout_tilize_with_val_padding t out start v :
  P call_tilize_with_val_padding ->
  adds_only P (has_layout TILE) (ttl.tilize_with_val_padding t out start v).
Proof.
  intros HP. unfold ttl.tilize_with_val_padding, has_layout. logged HP.
  destruct (storage t); [apply adds_only_raise|copied].
Qed.

Lemma layout_untilize_with_unpadding t start stop :
  P call_untilize_with_unpadding ->
  adds_only P (has_layout ROW_MAJOR)
    (ttl.untilize_with_unpadding t start stop).
Proof.
  intros HP. unfold ttl.untilize_with_unpadding, has_layout. logged HP.
  destruct (storage t); [apply adds_only_raise|copied].
Qed.

End layouts_of_bindings.

(** One step of a program whose result does not matter. *)
Ltac pass :=
  eapply adds_only_bind with (Q1 := @anything _);
  [walk (@anything Tensor) ltac:(trivial_side) | cbv beta; intros ? _].

(** One step of a program whose result satisfies [Q]. *)
Ltac step Q :=
  eapply adds_only_bind with (Q1 := Q); [|cbv beta; intros ? ?].

Ltac by_rule rule :=
  eapply adds_only_weaken; [apply rule; try exact I|cbv beta].

Section layouts.

Variable rec : functions.
Hypothesis Hany : functions_add_only any_call rec.
Hypothesis Hrec : layout_functions rec.

Lemma layout_reshape_moving t s :
  adds_only any_call (same_or_row_major t) (_reshape_moving rec t s).
Proof.
  destruct Hany as (Ar & A4 & Al & Af & At).
  destruct Hrec as (Lr & Lt & L4 & Ll & Lf).
  unfold _reshape_moving, ttnn_reshape, torch_reshape, from_device, to_device.
  destruct (_ && _ && _).
  - destruct (dims s) as [|w [|z [|y [|x [|]]]]]; try apply adds_only_raise.
    step (has_layout (layout t)).
    { apply layout_tensor_reshape. exact I. }
    by_rule adds_reshape. unfold has_layout in *. intros r [_ Hr]. left.
    congruence.
  - destruct (has_storage_type_of t DEVICE).
    + pass. pass. pass. pass. pass.
      step (has_layout ROW_MAJOR). { apply (Lf _ _ (Some ROW_MAJOR_LAYOUT)). }
      step (has_layout ROW_MAJOR).
      { by_rule layout_to_device. unfold has_layout in *. congruence. }
      by_rule adds_reshape. unfold has_layout in *. intros r [_ Hr]. right.
      congruence.
    + pass. pass. pass.
      step (has_layout ROW_MAJOR). { apply (Lf _ _ (Some ROW_MAJOR_LAYOUT)). }
      by_rule adds_reshape. unfold has_layout in *. intros r [_ Hr]. right.
      congruence.
Qed.

Lemma layout_reshape_tiled t s :
  adds_only any_call (same_or_row_major t) (_reshape_tiled rec t s).
Proof.
  unfold _reshape_tiled, ttnn_reshape.
  destruct (layout t) eqn:Hlay.
  - apply layout_reshape_moving.
  - pass. destruct a as [[b h] x].
    destruct (_ && _).
    + by_rule adds_reshape. intros r [_ Hr]. now left.
    + apply layout_reshape_moving.
Qed.

Lemma layout_reshape_body t arg :
  adds_only any_call (same_or_row_major t) (_reshape_body rec t arg).
Proof.
  pose proof layout_reshape_tiled as Htiled.
  unfold _reshape_body, ttnn_reshape. pass.
  destruct (_ && _); [apply adds_only_ret; now left|].
  destruct (is_contiguous t); [|apply Htiled].
  destruct (has_storage_type_of t DEVICE).
  - pass. pass. destruct (bool_decide _); [|apply Htiled].
    by_rule adds_reshape. intros r [_ Hr]. now left.
  - by_rule adds_reshape. intros r [_ Hr]. now left.
Qed.

Lemma layout_reshape_body_tiled t s :
  layout t = TILE -> tile_aligned s ->
  adds_only any_call (has_layout TILE) (_reshape_body rec t (ShapeArg s)).
Proof.
  intros Hlay (b & ph & pw & Hpad & Hph & Hpw).
  unfold _reshape_body, ttnn_reshape. simpl resolve_shape.
  intros w r w' Hrun. rewrite bind_lift_ok in Hrun. revert w r w' Hrun.
  change (adds_only any_call (has_layout TILE)
            (if bool_decide (shape t = s)
                && bool_decide (dims (shape t) = dims s)
             then ret t
             else if is_contiguous t
                  then if has_storage_type_of t DEVICE
                       then old_width <- lift (getitem_last (dims (shape t))) ;;
                            new_width <- lift (getitem_last (dims s)) ;;
                            if bool_decide (old_width = new_width)
                            then ttl.reshape t s
                            else _reshape_tiled rec t s
                       else ttl.reshape t s
                  else _reshape_tiled rec t s)).
  destruct (_ && _); [now apply adds_only_ret|].
  unfold is_contiguous, _reshape_tiled. rewrite Hlay.
  rewrite Hpad, unpack_last_two_app.
  intros w r w' Hrun. rewrite bind_lift_ok in Hrun. revert w r w' Hrun.
  apply Z.eqb_eq in Hph, Hpw. rewrite Hph, Hpw. cbn [andb].
  change (adds_only any_call (has_layout TILE) (ttnn_reshape t s)).
  unfold ttnn_reshape. by_rule adds_reshape.
  unfold has_layout. intros r [_ Hr]. congruence.
Qed.

Lemma layout_reshape_to_4D_body t :
  adds_only any_call (same_or_row_major t) (_reshape_to_4D_body rec t).
Proof.
  destruct Hrec as (Lr & _).
  unfold _reshape_to_4D_body. cbv zeta.
  destruct (bool_decide _); [apply adds_only_ret; now left|].
  destruct (bool_decide _); [apply adds_only_raise|]. apply Lr.
Qed.

Lemma layout_unpad_with_pytorch t :
  adds_only any_call (has_layout ROW_MAJOR) (unpad_with_pytorch rec t).
Proof.
  destruct Hany as (Ar & A4 & Al & Af & At).
  destruct Hrec as (Lr & Lt & L4 & Ll & Lf).
  unfold unpad_with_pytorch. cbv zeta. pass. pass.
  eapply adds_only_bind with (Q1 := anything).
  - apply adds_unpad_loop; [exact I|]. now apply adds_only_ret.
  - intros a' _. apply (Lf _ _ (Some ROW_MAJOR_LAYOUT)).
Qed.

Lemma layout_unpad_on_host lcn t :
  (lcn = false -> layout t = ROW_MAJOR) ->
  adds_only any_call (has_layout ROW_MAJOR) (unpad_on_host rec lcn t ROW_MAJOR).
Proof.
  intros Hlcn. destruct Hrec as (Lr & Lt & L4 & Ll & Lf).
  unfold unpad_on_host, value_in_layout.
  step (same_or_row_major t). { apply L4. }
  step (has_layout ROW_MAJOR).
  { destruct lcn; cbn [negb].
    - by_rule adds_to_layout. unfold has_layout. now intros r [_ Hr].
    - apply adds_only_ret. unfold has_layout, same_or_row_major in *.
      destruct H as [H|H]; [rewrite H; now apply Hlcn|exact H]. }
  by_rule adds_unpad_from_tile. unfold has_layout in *. intros r [_ Hr].
  congruence.
Qed.

Lemma layout_unpad_host_copy lcn t :
  (lcn = false -> layout t = ROW_MAJOR) ->
  adds_only any_call (has_layout ROW_MAJOR)
    (unpad_host_copy rec lcn t ROW_MAJOR).
Proof.
  intros Hlcn. unfold unpad_host_copy. cbv zeta.
  step (has_layout ROW_MAJOR).
  { destruct lcn.
    - by_rule adds_to_layout. unfold has_layout. now intros r [_ Hr].
    - apply adds_only_ret. now apply Hlcn. }
  destruct (bool_decide _).
  - apply layout_unpad_on_host. intros _. assumption.
  - apply layout_unpad_with_pytorch.
Qed.

Lemma layout_to_row_major n lcn dev intended t :
  (lcn = false -> layout t = ROW_MAJOR) ->
  adds_only any_call (has_layout ROW_MAJOR)
    (to_row_major rec n lcn dev intended t ROW_MAJOR).
Proof.
  intros Hlcn. destruct Hany as (Ar & A4 & Al & Af & At).
  destruct Hrec as (Lr & Lt & L4 & Ll & Lf).
  unfold to_row_major. cbv zeta.
  step (has_layout ROW_MAJOR).
  - destruct dev.
    + pass. destruct (_ && _).
      * pass. apply layout_untilize_with_unpadding. exact I.
      * step (has_layout (layout t)).
        { unfold from_device. by_rule adds_cpu. unfold has_layout.
          now intros r [_ Hr]. }
        apply layout_unpad_host_copy. unfold has_layout in *.
        intros Hf. rewrite H. now apply Hlcn.
    + destruct n; [now apply layout_unpad_on_host|].
      destruct lcn; [|apply adds_only_raise].
      unfold value_in_layout. cbn [negb].
      by_rule adds_to_layout. unfold has_layout. now intros r [_ Hr].
  - eapply adds_only_weaken; [apply Lr|]. cbv beta.
    unfold same_or_row_major, has_layout in *. intros r [Hr|Hr]; congruence.
Qed.

Lemma layout_to_tile dev t :
  adds_only any_call (has_layout TILE) (to_tile rec dev t TILE).
Proof.
  destruct Hany as (Ar & A4 & Al & Af & At).
  destruct Hrec as (Lr & Lt & L4 & Ll & Lf).
  unfold to_tile. pass. destruct a as [[b h] x]. cbv zeta.
  pass. pass.
  step (has_layout TILE).
  - destruct (bool_decide (layout a = ROW_MAJOR_LAYOUT)) eqn:Hlay; cbn [andb].
    + destruct dev.
      * apply layout_tilize_with_val_padding. exact I.
      * pass. by_rule adds_to_layout. unfold has_layout. now intros r [_ Hr].
    + apply bool_decide_eq_false in Hlay.
      assert (Ha : layout a = TILE).
      { destruct (layout a); [exfalso; now apply Hlay|reflexivity]. }
      destruct dev; cbn [andb]; now apply adds_only_ret.
  - apply Lt; [assumption|].
    exists b, (h + (TILE_SIZE - h mod TILE_SIZE) mod TILE_SIZE)%Z,
      (x + (TILE_SIZE - x mod TILE_SIZE) mod TILE_SIZE)%Z.
    split; [reflexivity|]. split; apply tile_padding_mod.
Qed.

Lemma layout_to_layout_body t lay :
  adds_only any_call (has_layout lay) (to_layout_body rec t lay).
Proof.
  unfold to_layout_body. cbv zeta.
  destruct (bool_decide (layout t = lay)) eqn:Hlay; cbn [negb andb].
  - apply bool_decide_eq_true in Hlay.
    rewrite andb_true_r.
    destruct (requires_padding_change lay (shape t)); cbn [negb].
    + destruct lay.
      * apply layout_to_row_major. intros _. exact Hlay.
      * apply layout_to_tile.
    + now apply adds_only_ret.
  - rewrite andb_false_r.
    destruct (requires_padding_change lay (shape t)); cbn [negb].
    + destruct lay.
      * apply layout_to_row_major. discriminate.
      * apply layout_to_tile.
    + destruct (has_storage_type_of t DEVICE).
      * destruct lay; [apply layout_untilize|apply layout_tilize]; exact I.
      * by_rule adds_to_layout. unfold has_layout. now intros r [_ Hr].
Qed.

Lemma layout_from_torch_body a dt lay dev mc :
  adds_only any_call (has_layout (default ROW_MAJOR lay))
    (from_torch_body rec a dt lay dev mc).
Proof.
  destruct Hrec as (Lr & Lt & L4 & Ll & Lf).
  unfold from_torch_body, to_device.
  assert (Hbody :
    adds_only any_call (has_layout (default ROW_MAJOR lay))
      (tensor <- ttl.Tensor_from_torch a dt ;;
       tensor <- match lay with
                 | Some l => fn_to_layout rec tensor l
                 | None => ret tensor
                 end ;;
       match dev with
       | Some d => ttl.to_device tensor d (default DRAM_MEMORY_CONFIG mc)
       | None => ret tensor
       end)).
  { step (has_layout ROW_MAJOR).
    { by_rule adds_Tensor_from_torch. unfold has_layout. now intros r [_ Hr]. }
    step (has_layout (default ROW_MAJOR lay)).
    { destruct lay; [apply Ll|now apply adds_only_ret]. }
    destruct dev; [|now apply adds_only_ret].
    by_rule layout_to_device. unfold has_layout in *. congruence. }
  destruct mc, dev; try exact Hbody. apply adds_only_raise.
Qed.

End layouts.

Lemma layout_functions_at_depth (fuel : nat) : layout_functions (at_depth fuel).
Proof.
  induction fuel as [|fuel IH].
  - refine (conj _ (conj _ (conj _ (conj _ _)))); intros;
      apply adds_only_raise.
  - pose proof (functions_only_add fuel) as Hany.
    simpl. refine (conj _ (conj _ (conj _ (conj _ _)))); intros.
    + now apply layout_reshape_body.
    + now apply layout_reshape_body_tiled.
    + now apply layout_reshape_to_4D_body.
    + now apply layout_to_layout_body.
    + now apply layout_from_torch_body.
Qed.



(** ** From a host array and back *)

Lemma dtype_to_torch_of_torch (d : TorchDType) :
  ttl.dtype_to_torch (ttl.dtype_of_torch d) = d.
Proof. now destruct d. Qed.



(** ** Indexing a row-major tensor on host *)





(** ** [to_layout] twice *)

Lemma resolve_tuple_no_padding (t : Tensor) (l : list Z) (s : Shape) :
  resolve_shape t (TupleArg l) = Ok s -> padded s = dims s.
Proof.
  unfold resolve_shape.
  destruct (negb _); [discriminate|].
  destruct (_ <? _)%Z.
  - destruct (index l (-1)); [|discriminate]. now intros [= <-].
  - now intros [= <-].
Qed.

Lemma requires_padding_change_tile_padded (b : list Z) (h x : Z) :
  requires_padding_change TILE
    (mkShape (b ++ [h; x])
       (b ++ [(h + (TILE_SIZE - h mod TILE_SIZE) mod TILE_SIZE)%Z;
              (x + (TILE_SIZE - x mod TILE_SIZE) mod TILE_SIZE)%Z]))
  = false.
Proof.
  unfold requires_padding_change. simpl dims. simpl padded.
  rewrite !last_two_app.
  rewrite (bool_decide_eq_false_2 (TILE = ROW_MAJOR_LAYOUT)) by discriminate.
  rewrite (bool_decide_eq_true_2 (TILE = TILE_LAYOUT)) by reflexivity.
  cbn [andb].
  destruct (bool_decide ([h; x] = _)) eqn:Heq; [|reflexivity].
  apply bool_decide_eq_true in Heq. injection Heq as Hh Hx.
  change [h; x] with ([] ++ [h; x]).
  rewrite from_end_app_1, from_end_app_2. simpl.
  pose proof (tile_padding_mod h) as Hmh. pose proof (tile_padding_mod x) as Hmx.
  rewrite <- Hh in Hmh. rewrite <- Hx in Hmx.
  apply Z.eqb_eq in Hmh, Hmx. now rewrite Hmh, Hmx.
Qed.

(** The shape [to_layout] returns asks for no further padding change
    towards the layout requested. *)
Lemma to_layout_result_settled (fuel : nat) (t : Tensor) (lay : Layout)
    (w : World) (r : Tensor) (w' : World) :
  to_layout fuel t lay w = (Ok r, w') ->
  requires_padding_change lay (shape r) = false.
Proof.
  destruct fuel as [|fuel]; [discriminate|].
  unfold to_layout. simpl. unfold to_layout_body. cbv zeta.
  destruct (requires_padding_change lay (shape t)) eqn:Hnec; cbn [negb andb].
  - rewrite andb_false_r. destruct lay.
    + unfold to_row_major. cbv zeta. intros Hrun.
      apply bind_ok_inv in Hrun as (out & w1 & _ & Hfinal).
      apply (reshape_run_shape fuel) in Hfinal.
      apply requires_padding_change_row_major_trivial.
      exact (resolve_tuple_no_padding _ _ _ Hfinal).
    + unfold to_tile. intros Hrun.
      apply bind_ok_inv in Hrun as ([[b h] x] & w1 & _ & Hrun).
      cbv zeta in Hrun.
      apply bind_ok_inv in Hrun as (t4 & w2 & _ & Hrun).
      apply bind_ok_inv in Hrun as (bs & w3 & _ & Hrun).
      apply bind_ok_inv in Hrun as (t5 & w4 & _ & Hfinal).
      apply (reshape_run_shape fuel) in Hfinal. simpl in Hfinal.
      injection Hfinal as <-. apply requires_padding_change_tile_padded.
  - destruct (negb (bool_decide (layout t = lay))) eqn:Hlcn.
    + (* the tag alone changes: the shape stays *)
      intros Hrun. assert (Hshape : shape r = shape t).
      { unfold has_storage_type_of, ttl.storage_type in Hrun.
        destruct (storage t) as [|dev mc] eqn:Hst.
        - simpl in Hrun. unfold ttl.to_layout, bind, log, ret in Hrun.
          rewrite Hst in Hrun. now injection Hrun as <- _.
        - simpl in Hrun.
          destruct lay;
            unfold ttl.untilize, ttl.tilize, bind, log, read, ttl.fresh, bind,
              alloc, ret in Hrun;
            rewrite Hst in Hrun; simpl in Hrun;
            destruct (heap w !! buffer t); try discriminate;
            now injection Hrun as <- _. }
      now rewrite Hshape.
    + intros [= <- _]. exact Hnec.
Qed.



(** ** [to_layout]: the tag alone, the rank, the logical shape *)

(** When the layout differs and no padding change is required, one call is
    made: the kernel of the device, or [to(layout)] on host. *)
Lemma tag_change_run (t : Tensor) (lay : Layout) (w : World) (data : list Z) :
  heap w !! buffer t = Some data ->
  exists (r : Tensor) (w' : World),
    (if has_storage_type_of t DEVICE
     then match lay with
          | ROW_MAJOR => ttl.untilize t
          | TILE => ttl.tilize t (ttl.memory_config t)
          end
     else ttl.to_layout t lay) w = (Ok r, w') /\
    calls w'
    = (if has_storage_type_of t DEVICE
       then match lay with
            | ROW_MAJOR => call_untilize
            | TILE => call_tilize
            end
       else call_to_layout) :: calls w /\
    layout r = lay /\ shape r = shape t /\ storage r = storage t /\
    dtype r = dtype t.
Proof.
  intros Hbuf. unfold has_storage_type_of, ttl.storage_type, ttl.memory_config.
  destruct (storage t) as [|dev mc] eqn:Hst; simpl.
  - unfold ttl.to_layout, bind, log, ret. rewrite Hst. simpl.
    eexists. eexists. split; [reflexivity|]. simpl. rewrite ?Hst. auto.
  - destruct lay;
      unfold ttl.untilize, ttl.tilize, bind, log, read, ttl.fresh, bind, alloc,
        ret; rewrite Hst; simpl; rewrite Hbuf;
      (eexists; eexists; split; [reflexivity|]); simpl; rewrite ?Hst; auto.
Qed.



Lemma split_last_two (l : list Z) :
  (2 <= length l)%nat -> exists b y x, l = b ++ [y; x].
Proof.
  intros Hlen. exists (but_last_two l).
  destruct (last_two l) as [|y [|x [|z rest]]] eqn:Hlast.
  - apply (f_equal length) in Hlast. unfold last_two in Hlast.
    rewrite length_drop in Hlast. simpl in Hlast. lia.
  - apply (f_equal length) in Hlast. unfold last_two in Hlast.
    rewrite length_drop in Hlast. simpl in Hlast. lia.
  - exists y, x. rewrite <- Hlast. unfold but_last_two, last_two.
    now rewrite take_drop.
  - apply (f_equal length) in Hlast. unfold last_two in Hlast.
    rewrite length_drop in Hlast. simpl in Hlast. lia.
Qed.



Lemma count_nonneg (l : list Z) : Forall (fun x => (0 <= x)%Z) l -> count l (-1) = 0%nat.
Proof.
  unfold count. induction 1 as [|x l Hx _ IH]; [reflexivity|].
  rewrite filter_cons. destruct (decide (x = (-1)%Z)); [lia|exact IH].
Qed.

Lemma prod_nonneg (l : list Z) : Forall (fun x => (0 <= x)%Z) l -> (0 <= prod l)%Z.
Proof.
  induction 1 as [|x l Hx _ IH]; unfold prod in *; simpl; [lia|].
  now apply Z.mul_nonneg_nonneg.
Qed.

Lemma resolve_nonneg_tuple (t : Tensor) (l : list Z) :
  Forall (fun x => (0 <= x)%Z) l ->
  resolve_shape t (TupleArg l) = Ok (Shape_of l).
Proof.
  intros Hl. unfold resolve_shape. rewrite (count_nonneg l Hl). simpl.
  pose proof (prod_nonneg l Hl) as Hp.
  now rewrite (proj2 (Z.ltb_ge _ _) Hp).
Qed.

Lemma unpack_last_two_inv (l b : list Z) (y x : Z) :
  unpack_last_two l = Ok (b, y, x) -> l = b ++ [y; x].
Proof.
  unfold unpack_last_two.
  destruct (from_end l 2) as [y'|] eqn:H2; [|discriminate].
  destruct (from_end l 1) as [x'|] eqn:H1; [|discriminate].
  intros [= <- <- <-].
  unfold from_end in H2. destruct (decide _) as [Hlen|]; [|discriminate].
  destruct (split_last_two l) as (b & y & x & ->); [lia|].
  rewrite but_last_two_app.
  rewrite from_end_app_1 in H1. injection H1 as <-.
  pose proof (from_end_app_2 b y x) as H2'. unfold from_end in H2'.
  rewrite decide_True in H2' by (rewrite length_app; simpl; lia).
  rewrite H2 in H2'. now injection H2' as <-.
Qed.



(** ** Tensors of rank 1 *)

Lemma reshape_to_4D_rank_1 (fuel : nat) (dt : DataType) (st : Storage)
    (buf : nat) (x : Z) (w : World) :
  let t := mkTensor dt ROW_MAJOR st (Shape_of [x]) buf in
  exists w',
    _reshape_to_4D (S (S fuel)) t w
    = (Ok (ttl.with_shape t (Shape_of [1; 1; 1; x]%Z)), w') /\
    heap w' = heap w /\ next w' = next w.
Proof.
  intros t. subst t. unfold _reshape_to_4D.
  change (fn__reshape_to_4D (at_depth (S (S fuel))))
    with (_reshape_to_4D_body (at_depth (S fuel))).
  unfold _reshape_to_4D_body. cbv zeta.
  cbn [layout dims shape padded Shape_of length].
  rewrite (bool_decide_eq_false_2 (1 = 4)%nat) by lia.
  rewrite (bool_decide_eq_false_2 (4 < 1)%nat) by lia.
  change (fn__reshape (at_depth (S fuel))) with (_reshape_body (at_depth fuel)).
  unfold _reshape_body. simpl resolve_shape. rewrite bind_lift_ok.
  cbn [layout dims shape padded Shape_of].
  rewrite (bool_decide_eq_false_2 (mkShape [x] [x] = _)) by discriminate.
  cbn [andb]. unfold is_contiguous.
  cbn [layout dims shape padded Shape_of].
  rewrite bool_decide_eq_true_2 by reflexivity.
  destruct (has_storage_type_of _ DEVICE).
  - change (getitem_last [x]) with (Ok x).
    rewrite bind_lift_ok.
    change [1; 1; 1; x]%Z with ([1; 1]%Z ++ [1%Z; x]).
    rewrite getitem_last_app, bind_lift_ok.
    rewrite bool_decide_eq_true_2 by reflexivity.
    eexists. split; [reflexivity|]. split; reflexivity.
  - eexists. split; [reflexivity|]. split; reflexivity.
Qed.

Lemma bind_bind {A B C} (m : M A) (f : A -> M B) (g : B -> M C) (w : World) :
  bind (bind m f) g w = bind m (fun a => bind (f a) g) w.
Proof. unfold bind. destruct (m w) as [[a|e] w1]; reflexivity. Qed.



(** ** The paths of [_reshape] *)


